(** * SpaceX launch dashboard (gf-ibm-ds-dash.py): the two Dash callbacks

    The script loads [spacex_launch_dash.csv] into the pandas DataFrame
    [spacex_df] once, computes [max_payload], [min_payload] and
    [launch_sites], and registers two callbacks, [get_pie_chart] and
    [get_scatter_chart].  Here the DataFrames live in a heap of frames
    (pandas objects are shared by reference, and the callbacks allocate and
    mutate frames of their own); a callback is a computation in a
    state-and-exception monad over that heap.  The figures plotly express
    builds are records holding what the callbacks put into them. *)

From Stdlib Require Import ZArith List String Bool Lia Permutation Sorted DecimalString.
Import ListNotations.
Open Scope string_scope.
Open Scope Z_scope.

(** ** Rows of [spacex_launch_dash.csv] *)

Record launch_record := mk_record {
  launch_site : string;               (* 'Launch Site' *)
  payload_mass : Z;                   (* 'Payload Mass (kg)' *)
  class : Z;                          (* 'class', 1 = success, 0 = failure *)
  booster_version_category : string   (* 'Booster Version Category' *)
}.

(** ** pandas helpers *)

(** [Series.unique()]: distinct values in order of first appearance,
    [seen] holding the values already met. *)
Section Unique.
Context {A : Type} (eqb : A -> A -> bool).

Fixpoint unique_acc (seen : list A) (l : list A) : list A :=
  match l with
  | [] => []
  | x :: r =>
      if existsb (eqb x) seen then unique_acc seen r
      else x :: unique_acc (x :: seen) r
  end.
End Unique.

Definition unique_str (l : list string) : list string := unique_acc String.eqb [] l.

Definition unique_Z (l : list Z) : list Z := unique_acc Z.eqb [] l.

Definition count_Z (v : Z) (l : list Z) : Z :=
  Z.of_nat (List.length (filter (Z.eqb v) l)).

(** Stable sort by count, descending ([sort_values(ascending=False)]). *)
Fixpoint insert_desc {A} (x : A * Z) (l : list (A * Z)) : list (A * Z) :=
  match l with
  | [] => [x]
  | y :: r => if snd y <? snd x then x :: y :: r else y :: insert_desc x r
  end.

Fixpoint sort_desc {A} (l : list (A * Z)) : list (A * Z) :=
  match l with
  | [] => []
  | x :: r => insert_desc x (sort_desc r)
  end.

(** [Series.value_counts()]: one row per distinct value with its number of
    occurrences, most frequent first. *)
Definition value_counts (l : list Z) : list (Z * Z) :=
  sort_desc (map (fun v => (v, count_Z v l)) (unique_Z l)).

(** [Series.max()] and [Series.min()]; [None] stands for the NaN pandas
    returns on an empty column. *)
Definition series_max (l : list Z) : option Z :=
  match l with [] => None | x :: r => Some (fold_left Z.max r x) end.

Definition series_min (l : list Z) : option Z :=
  match l with [] => None | x :: r => Some (fold_left Z.min r x) end.

(** [sorted(...)] of site names: insertion sort on [String.leb]. *)
Fixpoint insert_str (x : string) (l : list string) : list string :=
  match l with
  | [] => [x]
  | y :: r => if String.leb x y then x :: y :: r else y :: insert_str x r
  end.

Definition sorted_str (l : list string) : list string :=
  fold_right insert_str [] l.

(** The order [sorted] puts site names in. *)
Definition str_le (a b : string) : Prop := String.leb a b = true.

(** ** Frames, the heap and the global summaries *)

(** A cell of the two-column frame built by [value_counts().reset_index()];
    [CNaN] is what [Series.map] puts for a key missing from its dict. *)
Inductive cell := CInt (z : Z) | CStr (s : string) | CNaN.

Inductive frame :=
  | FRecords (rs : list launch_record)                   (* spacex_df and its row filters *)
  | FCounts (columns : list string) (rows : list (cell * Z)).

Definition loc := nat.

(** The module-level values of the script. *)
Record summaries := mk_summaries {
  max_payload : option Z;
  min_payload : option Z;
  launch_sites : list string
}.

Record state := mk_state {
  heap : list frame;
  globals : summaries
}.

(** [spacex_df] is the first frame allocated. *)
Definition spacex_df : loc := 0%nat.

Definition load_summaries (ds : list launch_record) : summaries :=
  {| max_payload := series_max (map payload_mass ds);
     min_payload := series_min (map payload_mass ds);
     launch_sites := sorted_str (unique_str (map launch_site ds)) |}.

(** The state after lines 10-14 of the script. *)
Definition init_state (ds : list launch_record) : state :=
  {| heap := [FRecords ds]; globals := load_summaries ds |}.

(** ** A state-and-exception monad *)

(** The Python exceptions the callbacks can raise: [IndexError] from
    [entered_payload[0]] on an empty list or from
    [px.colors.qualitative.Plotly[i]] past the palette; [KeyError] for
    a column a frame does not have. *)
Inductive py_error := IndexError | KeyError.

Inductive outcome (A : Type) := Ok (a : A) | Err (e : py_error).
Arguments Ok {A} a.
Arguments Err {A} e.

(** An exception leaves the heap as it was when it was raised. *)
Definition M (A : Type) := state -> outcome A * state.

Definition ret {A} (a : A) : M A := fun s => (Ok a, s).

Definition bind {A B} (m : M A) (k : A -> M B) : M B :=
  fun s => match m s with
           | (Ok a, s') => k a s'
           | (Err e, s') => (Err e, s')
           end.

Definition raise {A} (e : py_error) : M A := fun s => (Err e, s).

Notation "x <- m ;; k" := (bind m (fun x => k))
  (at level 61, m at next level, right associativity).

Definition alloc (f : frame) : M loc :=
  fun s => (Ok (List.length (heap s)),
            {| heap := heap s ++ [f]; globals := globals s |}).

Definition read (l : loc) : M frame :=
  fun s => match nth_error (heap s) l with
           | Some f => (Ok f, s)
           | None => (Err KeyError, s)
           end.

(** In-place update of a frame ([df.columns = ...], [df[col] = ...]). *)
Fixpoint replace_nth {A} (n : nat) (x : A) (l : list A) : list A :=
  match n, l with
  | _, [] => []
  | O, _ :: r => x :: r
  | S n', y :: r => y :: replace_nth n' x r
  end.

Definition write (l : loc) (f : frame) : M unit :=
  fun s => match nth_error (heap s) l with
           | Some _ => (Ok tt, {| heap := replace_nth l f (heap s); globals := globals s |})
           | None => (Err KeyError, s)
           end.

Definition read_records (l : loc) : M (list launch_record) :=
  f <- read l ;;
  match f with FRecords rs => ret rs | FCounts _ _ => raise KeyError end.

(** ** plotly *)

(** [px.colors.qualitative.Plotly]. *)
Definition Plotly : list string :=
  ["#636EFA"; "#EF553B"; "#00CC96"; "#AB63FA"; "#FFA15A";
   "#19D3F3"; "#FF6692"; "#B6E880"; "#FF97FF"; "#FECB52"].

(** [px.colors.qualitative.Plotly[i]]. *)
Definition plotly_color (i : nat) : M string :=
  match nth_error Plotly i with
  | Some c => ret c
  | None => raise IndexError
  end.

Definition cell_eqb (a b : cell) : bool :=
  match a, b with
  | CInt x, CInt y => Z.eqb x y
  | CStr x, CStr y => String.eqb x y
  | CNaN, CNaN => true
  | _, _ => false
  end.

(** A pie trace: one entry per row of the frame given to [px.pie]
    (label, value, colour from [color_discrete_map] or [None] for the
    default colour sequence), and the [sort] attribute of the trace. *)
Record pie_entry := mk_pie_entry {
  pe_label : cell;
  pe_value : Z;
  pe_color : option string
}.

Record pie_figure := mk_pie_figure {
  pie_title : string;
  pie_entries : list pie_entry;
  pie_sort : bool
}.

(** [go.Pie] draws one slice per distinct label, its value the sum of the
    values of the entries carrying that label. *)
Definition label_sum (lab : cell) (es : list pie_entry) : Z :=
  fold_right (fun e acc => if cell_eqb (pe_label e) lab then pe_value e + acc else acc) 0 es.

Definition pie_slices (fig : pie_figure) : list (cell * Z) :=
  map (fun lab => (lab, label_sum lab (pie_entries fig)))
      (unique_acc cell_eqb [] (map pe_label (pie_entries fig))).

(** The colour of the slice labelled [lab], if there is one. *)
Definition slice_color (lab : cell) (fig : pie_figure) : option (option string) :=
  match find (fun e => cell_eqb (pe_label e) lab) (pie_entries fig) with
  | Some e => Some (pe_color e)
  | None => None
  end.

(** [px.pie(spacex_df, values='class', names='Launch Site', title=...)]:
    one entry per row; no [category_orders], so the trace keeps
    [go.Pie]'s default [sort=True]. *)
Definition px_pie_records (rs : list launch_record) (title : string) : pie_figure :=
  {| pie_title := title;
     pie_entries := map (fun r => mk_pie_entry (CStr (launch_site r)) (class r) None) rs;
     pie_sort := true |}.

(** [px.pie(df, values='count', names='class', color='class',
    color_discrete_map=..., category_orders={'class': order_in})].
    plotly express puts the rows whose name is listed in [order_in] first,
    in that order, then the others, and turns [sort] off. *)
Definition lookup_color (cmap : list (string * string)) (c : cell) : option string :=
  match c with
  | CStr s => option_map snd (find (fun p => String.eqb (fst p) s) cmap)
  | _ => None
  end.

Definition order_rows (order_in : list string) (rows : list (cell * Z)) : list (cell * Z) :=
  List.concat (map (fun o => filter (fun r => cell_eqb (fst r) (CStr o)) rows) order_in)
  ++ filter (fun r => negb (existsb (fun o => cell_eqb (fst r) (CStr o)) order_in)) rows.

Definition px_pie_counts (f : frame) (cmap : list (string * string))
    (order_in : list string) (title : string) : M pie_figure :=
  match f with
  | FCounts cols rows =>
      if existsb (String.eqb "class") cols && existsb (String.eqb "count") cols then
        ret {| pie_title := title;
               pie_entries := map (fun r => mk_pie_entry (fst r) (snd r) (lookup_color cmap (fst r)))
                                  (order_rows order_in rows);
               pie_sort := false |}
      else raise KeyError
  | FRecords _ => raise KeyError
  end.

(** ** [get_pie_chart] (lines 62-89) *)

(** [filtered_df['class'].map({0: 'Failure', 1: 'Success'})]. *)
Definition class_label (c : cell) : cell :=
  match c with
  | CInt 0 => CStr "Failure"
  | CInt 1 => CStr "Success"
  | _ => CNaN
  end.

Definition set_columns (cols : list string) (f : frame) : M frame :=
  match f with
  | FCounts _ rows => ret (FCounts cols rows)
  | FRecords _ => raise KeyError
  end.

Definition map_class_column (f : frame) : M frame :=
  match f with
  | FCounts cols rows =>
      if existsb (String.eqb "class") cols
      then ret (FCounts cols (map (fun r => (class_label (fst r), snd r)) rows))
      else raise KeyError
  | FRecords _ => raise KeyError
  end.

Definition get_pie_chart (entered_site : string) : M pie_figure :=
  if String.eqb entered_site "ALL" then
    df <- read_records spacex_df ;;
    ret (px_pie_records df "Total Success Launches By Site")
  else
    failure_color <- plotly_color 1 ;;
    success_color <- plotly_color 0 ;;
    let color_map := [("Failure", failure_color); ("Success", success_color)] in
    let category_orders := ["Success"; "Failure"] in
    df <- read_records spacex_df ;;
    (* spacex_df[spacex_df['Launch Site'] == entered_site] *)
    l1 <- alloc (FRecords (filter (fun r => String.eqb (launch_site r) entered_site) df)) ;;
    sub <- read_records l1 ;;
    (* ['class'].value_counts().reset_index() *)
    l2 <- alloc (FCounts ["class"; "count"]
                   (map (fun p => (CInt (fst p), snd p)) (value_counts (map class sub)))) ;;
    (* filtered_df.columns = ['class', 'count'] *)
    f2 <- read l2 ;;
    f2' <- set_columns ["class"; "count"] f2 ;;
    _ <- write l2 f2' ;;
    (* filtered_df['class'] = filtered_df['class'].map(...) *)
    f3 <- read l2 ;;
    f3' <- map_class_column f3 ;;
    _ <- write l2 f3' ;;
    f4 <- read l2 ;;
    px_pie_counts f4 color_map category_orders
                  ("Total Success Launches for Site " ++ entered_site).

(** ** [get_scatter_chart] (lines 95-128) *)

(** One marker of [px.scatter(filtered_df, x='Payload Mass (kg)', y='class',
    color='Booster Version Category', size='Payload Mass (kg)', ...)]. *)
Record point := mk_point {
  pt_x : Z;
  pt_y : Z;
  pt_size : Z;
  pt_category : string;
  pt_color : option string
}.

Record scatter_figure := mk_scatter_figure {
  sc_title : string;
  sc_points : list point;
  sc_color_map : list (string * string);
  sc_height : Z;
  sc_yaxis_title : string;
  sc_tickvals : list Z;
  sc_ticktext : list string
}.

(** [entered_payload[0]] and [entered_payload[-1]]. *)
Definition py_first (l : list Z) : M Z :=
  match l with [] => raise IndexError | x :: _ => ret x end.

Definition py_last (l : list Z) : M Z :=
  match rev l with [] => raise IndexError | x :: _ => ret x end.

(** [color_map[x] = v] on a Python dict kept in insertion order. *)
Fixpoint dict_set (d : list (string * string)) (k v : string) : list (string * string) :=
  match d with
  | [] => [(k, v)]
  | (k', v') :: r => if String.eqb k' k then (k, v) :: r else (k', v') :: dict_set r k v
  end.

Definition dict_get (d : list (string * string)) (k : string) : option string :=
  option_map snd (find (fun p => String.eqb (fst p) k) d).

(** [for i, x in enumerate(boosters): color_map[x] = px.colors.qualitative.Plotly[i]] *)
Fixpoint color_loop (i : nat) (bs : list string) (cmap : list (string * string))
    : M (list (string * string)) :=
  match bs with
  | [] => ret cmap
  | x :: r => c <- plotly_color i ;; color_loop (S i) r (dict_set cmap x c)
  end.

Definition px_scatter (rs : list launch_record) (title : string)
    (cmap : list (string * string)) (height : Z) : scatter_figure :=
  {| sc_title := title;
     sc_points := map (fun r => mk_point (payload_mass r) (class r) (payload_mass r)
                                  (booster_version_category r)
                                  (dict_get cmap (booster_version_category r))) rs;
     sc_color_map := cmap;
     sc_height := height;
     sc_yaxis_title := "";
     sc_tickvals := [];
     sc_ticktext := [] |}.

Definition update_yaxes (fig : scatter_figure) (title_text : string)
    (tickvals : list Z) (ticktext : list string) : scatter_figure :=
  {| sc_title := sc_title fig;
     sc_points := sc_points fig;
     sc_color_map := sc_color_map fig;
     sc_height := sc_height fig;
     sc_yaxis_title := title_text;
     sc_tickvals := tickvals;
     sc_ticktext := ticktext |}.

Definition in_payload_range (lo hi : Z) (r : launch_record) : bool :=
  (lo <=? payload_mass r) && (payload_mass r <=? hi).

Definition get_scatter_chart (entered_site : string) (entered_payload : list Z)
    : M scatter_figure :=
  entered_payload_min <- py_first entered_payload ;;
  entered_payload_max <- py_last entered_payload ;;
  df <- read_records spacex_df ;;
  l1 <- alloc (FRecords (filter (in_payload_range entered_payload_min entered_payload_max) df)) ;;
  filtered_df <- (if negb (String.eqb entered_site "ALL") then
                    f1 <- read_records l1 ;;
                    alloc (FRecords (filter (fun r => String.eqb (launch_site r) entered_site) f1))
                  else ret l1) ;;
  df0 <- read_records spacex_df ;;
  let boosters := unique_str (map booster_version_category df0) in
  color_map <- color_loop 0 boosters [] ;;
  let title_suffix := if String.eqb entered_site "ALL" then "all Sites"
                      else "site " ++ entered_site in
  let title := "Correlation between Payload and Success for " ++ title_suffix in
  rs <- read_records filtered_df ;;
  let fig := px_scatter rs title color_map 400 in
  ret (update_yaxes fig "Success or Failure" [0; 1] ["Failure"; "Success"]).

(** ** Running a callback *)

Definition run {A} (m : M A) (s : state) : outcome A := fst (m s).

(** The records shown by a scatter figure, and the palette index a
    booster category gets from its position in the full dataset. *)
Fixpoint index_of (x : string) (l : list string) : option nat :=
  match l with
  | [] => None
  | y :: r => if String.eqb y x then Some O else option_map S (index_of x r)
  end.

Definition success_count (site : string) (ds : list launch_record) : Z :=
  Z.of_nat (List.length (filter (fun r => String.eqb (launch_site r) site && Z.eqb (class r) 1) ds)).

Definition binary_classes (ds : list launch_record) : Prop :=
  Forall (fun r => class r = 0 \/ class r = 1) ds.

Definition to_point (cmap : list (string * string)) (r : launch_record) : point :=
  mk_point (payload_mass r) (class r) (payload_mass r) (booster_version_category r)
           (dict_get cmap (booster_version_category r)).

(** A small dataset: sites A and B, payloads 100, 6000, 3000 at A. *)
Definition ds0 : list launch_record :=
  [mk_record "A" 100 1 "FT"; mk_record "A" 6000 0 "v1.1";
   mk_record "A" 3000 1 "FT"; mk_record "B" 500 0 "B4";
   mk_record "B" 7000 0 "FT"; mk_record "A" 2000 1 "B5"].

(** ** Module level: dropdown options and the app layout (lines 15-55) *)

(** [options = [{'label': 'All Sites', 'value': 'ALL'}] +
    [{'label': x, 'value': x} for x in launch_sites]], as (label, value). *)
Definition options (g : summaries) : list (string * string) :=
  ("All Sites", "ALL") :: map (fun x => (x, x)) (launch_sites g).

(** Python's [range(start, stop, step)] for [step > 0]. *)
Definition py_range (start stop step : Z) : list Z :=
  map (fun i => start + step * Z.of_nat i)
      (seq 0 (Z.to_nat ((stop - start + step - 1) / step))).

(** Python's [str] on an int. *)
Definition py_str (z : Z) : string := NilZero.string_of_int (Z.to_int z).

(** [dcc.Dropdown(id='site-dropdown', options=options, value='ALL',
    placeholder=..., searchable=True)]. *)
Record dropdown := mk_dropdown {
  dd_id : string;
  dd_options : list (string * string);
  dd_value : string;
  dd_placeholder : string;
  dd_searchable : bool
}.

(** [dcc.RangeSlider(id='payload-slider', min=0, max=10000, step=1000,
    marks={x: str(x) for x in range(0, 10001, 2500)},
    value=[min_payload, max_payload])]; [None] in [rs_value] is the NaN
    of an empty column. *)
Record range_slider := mk_range_slider {
  rs_id : string;
  rs_min : Z;
  rs_max : Z;
  rs_step : Z;
  rs_marks : list (Z * string);
  rs_value : list (option Z)
}.

(** The components of [app.layout] the callbacks are wired to (the styling
    of the heading is left out). *)
Record layout := mk_layout {
  heading : string;
  site_dropdown : dropdown;
  pie_graph_id : string;
  payload_label : string;
  payload_slider : range_slider;
  scatter_graph_id : string
}.

Definition app_layout (g : summaries) : layout :=
  {| heading := "SpaceX Launch Records Dashboard";
     site_dropdown := {| dd_id := "site-dropdown"; dd_options := options g; dd_value := "ALL";
                         dd_placeholder := "Select a launch site"; dd_searchable := true |};
     pie_graph_id := "success-pie-chart";
     payload_label := "Payload range (Kg):";
     payload_slider := {| rs_id := "payload-slider"; rs_min := 0; rs_max := 10000; rs_step := 1000;
                          rs_marks := map (fun x => (x, py_str x)) (py_range 0 10001 2500);
                          rs_value := [min_payload g; max_payload g] |};
     scatter_graph_id := "success-payload-scatter-chart" |}.

(** States the running app goes through: the loaded state, then any
    sequence of callback invocations (returning or raising). *)
Inductive reachable (ds : list launch_record) : state -> Prop :=
  | reach_init : reachable ds (init_state ds)
  | reach_pie (st : state) (site : string) :
      reachable ds st -> reachable ds (snd (get_pie_chart site st))
  | reach_scatter (st : state) (site : string) (payload : list Z) :
      reachable ds st -> reachable ds (snd (get_scatter_chart site payload st)).

(** * Proofs *)

(** ** Evaluating the callbacks on the loaded dataset *)

Definition site_rows (s : string) (ds : list launch_record) : list (cell * Z) :=
  map (fun r => (class_label (fst r), snd r))
      (map (fun p => (CInt (fst p), snd p))
           (value_counts (map class (filter (fun r => String.eqb (launch_site r) s) ds)))).

Definition site_pie (s : string) (ds : list launch_record) : pie_figure :=
  {| pie_title := "Total Success Launches for Site " ++ s;
     pie_entries :=
       map (fun r => mk_pie_entry (fst r) (snd r)
                       (lookup_color [("Failure", "#EF553B"); ("Success", "#636EFA")] (fst r)))
           (order_rows ["Success"; "Failure"] (site_rows s ds));
     pie_sort := false |}.

Lemma get_pie_chart_all (ds : list launch_record) :
  run (get_pie_chart "ALL") (init_state ds)
  = Ok (px_pie_records ds "Total Success Launches By Site").
Proof. reflexivity. Qed.

Lemma get_pie_chart_site (ds : list launch_record) (s : string) :
  s <> "ALL" -> run (get_pie_chart s) (init_state ds) = Ok (site_pie s ds).
Proof.
  intro Hs. apply String.eqb_neq in Hs.
  unfold run, get_pie_chart. rewrite Hs. reflexivity.
Qed.

Definition boosters_of (ds : list launch_record) : list string :=
  unique_str (map booster_version_category ds).

Definition scatter_rows (ds : list launch_record) (site : string) (lo hi : Z)
    : list launch_record :=
  let f := filter (in_payload_range lo hi) ds in
  if String.eqb site "ALL" then f
  else filter (fun r => String.eqb (launch_site r) site) f.

Definition scatter_title (site : string) : string :=
  "Correlation between Payload and Success for "
  ++ (if String.eqb site "ALL" then "all Sites" else "site " ++ site).

Lemma color_loop_state (i : nat) (bs : list string) (d : list (string * string)) (s s' : state) :
  color_loop i bs d s = (fst (color_loop i bs d s'), s).
Proof.
  revert i d. induction bs as [|x r IH]; intros i d; simpl.
  - reflexivity.
  - unfold bind, plotly_color. destruct (nth_error Plotly i); simpl.
    + apply IH.
    + reflexivity.
Qed.

Lemma last_rev_head (l : list Z) (x d : Z) (t : list Z) :
  rev l = x :: t -> x = last l d.
Proof.
  intro H. destruct l as [|a l'] using rev_ind.
  - discriminate.
  - rewrite rev_unit in H. injection H as ->. rewrite last_last. reflexivity.
Qed.

Lemma py_last_cons (lo : Z) (rest : list Z) :
  py_last (lo :: rest) = ret (last (lo :: rest) lo).
Proof.
  unfold py_last. destruct (rev (lo :: rest)) as [|x t] eqn:E.
  - apply (f_equal (@List.length Z)) in E. rewrite length_rev in E. discriminate.
  - rewrite <- (last_rev_head _ _ lo _ E). reflexivity.
Qed.

Lemma get_scatter_chart_run (ds : list launch_record) (site : string) (lo : Z) (rest : list Z) :
  run (get_scatter_chart site (lo :: rest)) (init_state ds)
  = match fst (color_loop 0 (boosters_of ds) [] (init_state ds)) with
    | Ok cmap =>
        Ok (update_yaxes
              (px_scatter (scatter_rows ds site lo (last (lo :: rest) lo))
                          (scatter_title site) cmap 400)
              "Success or Failure" [0; 1] ["Failure"; "Success"])
    | Err e => Err e
    end.
Proof.
  unfold run, get_scatter_chart. rewrite py_last_cons.
  unfold scatter_rows, scatter_title, boosters_of.
  destruct (String.eqb site "ALL") eqn:Hs; cbn -[color_loop]; unfold bind at 1;
    rewrite (color_loop_state _ _ _ _ (init_state ds));
    destruct (fst (color_loop 0 _ [] (init_state ds))); reflexivity.
Qed.

(** ** Distinct values and the booster colour map *)

Section UniqueFacts.
Context {A : Type} (eqb : A -> A -> bool) (eqb_spec : forall x y, reflect (x = y) (eqb x y)).

Lemma existsb_eqb_In (x : A) (l : list A) : existsb (eqb x) l = true <-> In x l.
Proof.
  rewrite existsb_exists. split.
  - intros [y [Hy E]]. destruct (eqb_spec x y); [subst; exact Hy | discriminate].
  - intro H. exists x. split; [exact H|]. destruct (eqb_spec x x); [reflexivity | contradiction].
Qed.

Lemma unique_acc_In (seen l : list A) (y : A) :
  In y (unique_acc eqb seen l) -> ~ In y seen /\ In y l.
Proof.
  revert seen. induction l as [|x r IH]; intros seen H; simpl in H.
  - contradiction.
  - destruct (existsb (eqb x) seen) eqn:E.
    + apply IH in H. destruct H as [H1 H2]. split; [exact H1 | right; exact H2].
    + destruct H as [<- | H].
      * split; [|left; reflexivity].
        intro Hin. apply existsb_eqb_In in Hin. congruence.
      * apply IH in H. destruct H as [H1 H2].
        split; [intro; apply H1; right; assumption | right; exact H2].
Qed.

Lemma unique_acc_NoDup (seen l : list A) : NoDup (unique_acc eqb seen l).
Proof.
  revert seen. induction l as [|x r IH]; intro seen; simpl.
  - constructor.
  - destruct (existsb (eqb x) seen).
    + apply IH.
    + constructor; [|apply IH].
      intro H. apply unique_acc_In in H. destruct H as [H _]. apply H. left. reflexivity.
Qed.

Lemma unique_acc_length (seen l : list A) :
  (List.length (unique_acc eqb seen l) <= List.length l)%nat.
Proof.
  revert seen. induction l as [|x r IH]; intro seen; simpl; [lia|].
  destruct (existsb (eqb x) seen); simpl; [specialize (IH seen) | specialize (IH (x :: seen))]; lia.
Qed.

(** Summing, over the distinct values, a weight that is non-zero only at
    [k] picks that weight once if [k] occurs (and was not seen before). *)
Lemma unique_acc_sum_at (k : A) (c : Z) (seen l : list A) :
  fold_right (fun v acc => if eqb v k then c + acc else acc) 0 (unique_acc eqb seen l)
  = if existsb (eqb k) l && negb (existsb (eqb k) seen) then c else 0.
Proof.
  revert seen. induction l as [|x r IH]; intro seen; simpl; [reflexivity|].
  destruct (existsb (eqb x) seen) eqn:Ex; simpl.
  - rewrite IH. destruct (eqb_spec k x) as [->|Hne]; simpl.
    + rewrite Ex. simpl. destruct (existsb (eqb x) r); reflexivity.
    + reflexivity.
  - rewrite IH. simpl. destruct (eqb_spec x k) as [->|Hne].
    + destruct (eqb_spec k k) as [_|]; [|contradiction]. simpl. rewrite Ex.
      destruct (eqb_spec k k); [|contradiction]. simpl. rewrite andb_false_r. lia.
    + destruct (eqb_spec k x) as [E|_]; [congruence|]. simpl. reflexivity.
Qed.
End UniqueFacts.

Lemma dict_get_set (d : list (string * string)) (x c k : string) :
  dict_get (dict_set d x c) k = if String.eqb x k then Some c else dict_get d k.
Proof.
  unfold dict_get. induction d as [|[k' v'] r IH]; simpl.
  - destruct (String.eqb x k); reflexivity.
  - destruct (String.eqb k' x) eqn:E.
    + apply String.eqb_eq in E. rewrite E. simpl.
      destruct (String.eqb x k); reflexivity.
    + simpl. destruct (String.eqb k' k) eqn:E2.
      * apply String.eqb_eq in E2. subst.
        rewrite String.eqb_sym, E. reflexivity.
      * exact IH.
Qed.

Lemma color_loop_ok (i : nat) (bs : list string) (d : list (string * string)) (s : state) :
  (i + List.length bs <= 10)%nat -> exists d', fst (color_loop i bs d s) = Ok d'.
Proof.
  revert i d. induction bs as [|x r IH]; intros i d Hlen; simpl.
  - eexists. reflexivity.
  - unfold bind, plotly_color.
    destruct (nth_error Plotly i) eqn:E.
    + apply IH. simpl in Hlen. lia.
    + apply nth_error_None in E. simpl in E, Hlen. lia.
Qed.

Lemma index_of_Some_In (k : string) (l : list string) (j : nat) :
  index_of k l = Some j -> In k l.
Proof.
  revert j. induction l as [|y r IH]; intros j E; simpl in E.
  - discriminate.
  - destruct (String.eqb y k) eqn:Eyk.
    + apply String.eqb_eq in Eyk. left. exact Eyk.
    + right. destruct (index_of k r) as [j'|] eqn:E'; [|discriminate].
      exact (IH j' eq_refl).
Qed.

Lemma index_of_In_Some (k : string) (l : list string) :
  In k l -> exists j, index_of k l = Some j.
Proof.
  induction l as [|y r IH]; intro H; simpl.
  - contradiction.
  - destruct (String.eqb y k) eqn:Eyk.
    + eexists. reflexivity.
    + destruct H as [-> | H].
      * rewrite String.eqb_refl in Eyk. discriminate.
      * destruct (IH H) as [j ->]. eexists. reflexivity.
Qed.

Lemma color_loop_get (i : nat) (bs : list string) (d d' : list (string * string)) (s : state) :
  NoDup bs -> fst (color_loop i bs d s) = Ok d' ->
  forall k, dict_get d' k = match index_of k bs with
                            | Some j => nth_error Plotly (i + j)
                            | None => dict_get d k
                            end.
Proof.
  revert i d. induction bs as [|x r IH]; intros i d Hnd Hrun k; simpl in *.
  - injection Hrun as ->. reflexivity.
  - unfold bind, plotly_color in Hrun.
    destruct (nth_error Plotly i) as [c|] eqn:E; [|discriminate].
    inversion Hnd as [|? ? Hx Hnd']. subst.
    rewrite (IH (S i) _ Hnd' Hrun k).
    destruct (String.eqb x k) eqn:Exk.
    + apply String.eqb_eq in Exk. subst.
      destruct (index_of k r) eqn:Ei.
      * exfalso. apply Hx. exact (index_of_Some_In _ _ _ Ei).
      * rewrite dict_get_set, String.eqb_refl, Nat.add_0_r. symmetry. exact E.
    + destruct (index_of k r) eqn:Ei; simpl.
      * replace (i + S n)%nat with (S i + n)%nat by lia. reflexivity.
      * rewrite dict_get_set, Exk. reflexivity.
Qed.

(** ** What a successful scatter call shows *)

Lemma get_scatter_chart_empty_range (site : string) (s : state) :
  fst (get_scatter_chart site [] s) = Err IndexError.
Proof. reflexivity. Qed.

Lemma scatter_ok_shape (ds : list launch_record) (site : string) (lo : Z) (rest : list Z)
    (fig : scatter_figure) :
  run (get_scatter_chart site (lo :: rest)) (init_state ds) = Ok fig ->
  sc_points fig = map (to_point (sc_color_map fig)) (scatter_rows ds site lo (last (lo :: rest) lo))
  /\ (forall k, dict_get (sc_color_map fig) k
                = match index_of k (boosters_of ds) with
                  | Some j => nth_error Plotly j
                  | None => None
                  end).
Proof.
  rewrite get_scatter_chart_run.
  destruct (fst (color_loop 0 (boosters_of ds) [] (init_state ds))) as [cmap|e] eqn:E;
    [|discriminate].
  intro H. injection H as <-. split; [reflexivity|].
  intro k. simpl. rewrite (color_loop_get 0 _ [] cmap _ (unique_acc_NoDup String.eqb String.eqb_spec [] _) E k).
  unfold boosters_of. destruct (index_of k _); reflexivity.
Qed.

Lemma scatter_ok_exists (ds : list launch_record) (site : string) (lo : Z) (rest : list Z) :
  (List.length (boosters_of ds) <= 10)%nat ->
  exists fig, run (get_scatter_chart site (lo :: rest)) (init_state ds) = Ok fig.
Proof.
  intro Hpal. rewrite get_scatter_chart_run.
  destruct (color_loop_ok 0 (boosters_of ds) [] (init_state ds) Hpal) as [cmap E].
  rewrite E. eexists. reflexivity.
Qed.

Lemma scatter_rows_filter (ds : list launch_record) (site : string) (lo hi : Z) :
  scatter_rows ds site lo hi
  = filter (fun r => in_payload_range lo hi r
                     && (String.eqb site "ALL" || String.eqb (launch_site r) site)) ds.
Proof.
  unfold scatter_rows. destruct (String.eqb site "ALL").
  - apply filter_ext. intro r. rewrite andb_true_r. reflexivity.
  - simpl. induction ds as [|r ds' IH]; simpl; [reflexivity|].
    destruct (in_payload_range lo hi r); simpl; [destruct (String.eqb (launch_site r) site); simpl|];
      rewrite ?IH; reflexivity.
Qed.

Lemma in_payload_range_spec (lo hi : Z) (r : launch_record) :
  in_payload_range lo hi r = true <-> lo <= payload_mass r <= hi.
Proof.
  unfold in_payload_range. rewrite andb_true_iff, !Z.leb_le. tauto.
Qed.

Lemma fold_min_le (l : list Z) (x : Z) :
  fold_left Z.min l x <= x /\ Forall (fun y => fold_left Z.min l x <= y) l.
Proof.
  revert x. induction l as [|a r IH]; intro x; simpl.
  - split; [lia | constructor].
  - destruct (IH (Z.min x a)) as [H1 H2]. split; [lia|].
    constructor; [lia | exact H2].
Qed.

Lemma fold_max_ge (l : list Z) (x : Z) :
  x <= fold_left Z.max l x /\ Forall (fun y => y <= fold_left Z.max l x) l.
Proof.
  revert x. induction l as [|a r IH]; intro x; simpl.
  - split; [lia | constructor].
  - destruct (IH (Z.max x a)) as [H1 H2]. split; [lia|].
    constructor; [lia | exact H2].
Qed.

Lemma payload_within_bounds (ds : list launch_record) (lo hi : Z) :
  min_payload (globals (init_state ds)) = Some lo ->
  max_payload (globals (init_state ds)) = Some hi ->
  forall r, In r ds -> lo <= payload_mass r <= hi.
Proof.
  simpl. unfold series_min, series_max.
  destruct (map payload_mass ds) as [|x l] eqn:Emap; [discriminate|].
  intros Hlo Hhi r Hr. injection Hlo as <-. injection Hhi as <-.
  apply (in_map payload_mass) in Hr. rewrite Emap in Hr.
  destruct (fold_min_le l x) as [Hm1 Hm2]. destruct (fold_max_ge l x) as [HM1 HM2].
  rewrite Forall_forall in Hm2, HM2.
  destruct Hr as [<- | Hr]; [lia|]. specialize (Hm2 _ Hr). specialize (HM2 _ Hr). lia.
Qed.

(** ** Claims about [get_scatter_chart] *)

(** C3: with a range [[lo, hi]] the scatter chart shows exactly the records
    with [lo <= payload <= hi] (both ends inclusive), restricted to the
    selected site unless it is "ALL", in dataset order; no point at all when
    no record is in range.  (The dataset's booster categories fit the
    ten-colour palette.) *)
Theorem scatter_chart_payload_filter (ds : list launch_record) (site : string) (lo hi : Z)
    (Hpal : (List.length (boosters_of ds) <= 10)%nat) :
  exists fig,
    run (get_scatter_chart site [lo; hi]) (init_state ds) = Ok fig
    /\ sc_points fig
       = map (to_point (sc_color_map fig))
             (filter (fun r => in_payload_range lo hi r
                               && (String.eqb site "ALL" || String.eqb (launch_site r) site)) ds)
    /\ (forall p, In p (sc_points fig) <->
          exists r, In r ds /\ lo <= payload_mass r <= hi
                    /\ (site = "ALL" \/ launch_site r = site)
                    /\ p = to_point (sc_color_map fig) r)
    /\ ((forall r, In r ds -> ~ (lo <= payload_mass r <= hi)) -> sc_points fig = []).
Proof.
  destruct (scatter_ok_exists ds site lo [hi] Hpal) as [fig Hfig].
  destruct (scatter_ok_shape _ _ _ _ _ Hfig) as [Hpts _].
  rewrite scatter_rows_filter in Hpts. simpl last in Hpts.
  exists fig. split; [exact Hfig|]. split; [exact Hpts|]. split.
  - intro p. rewrite Hpts, in_map_iff. split.
    + intros [r [<- Hr]]. apply filter_In in Hr. destruct Hr as [Hr Hc].
      apply andb_true_iff in Hc. destruct Hc as [Hc1 Hc2].
      apply in_payload_range_spec in Hc1. apply orb_true_iff in Hc2.
      exists r. repeat split; try assumption; try lia.
      destruct Hc2 as [E|E]; apply String.eqb_eq in E; [left|right]; exact E.
    + intros [r [Hr [Hc1 [Hc2 ->]]]]. exists r. split; [reflexivity|].
      apply filter_In. split; [exact Hr|].
      apply andb_true_iff. split; [apply in_payload_range_spec; exact Hc1|].
      apply orb_true_iff. destruct Hc2 as [E|E]; apply String.eqb_eq in E; [left|right]; exact E.
  - intro Hnone. rewrite Hpts.
    assert (Hf : forall l, incl l ds ->
                 filter (fun r => in_payload_range lo hi r
                                  && (String.eqb site "ALL" || String.eqb (launch_site r) site)) l = []).
    { induction l as [|r l IH]; intro Hincl; simpl; [reflexivity|].
      destruct (in_payload_range lo hi r) eqn:Er.
      - apply in_payload_range_spec in Er. exfalso. apply (Hnone r); [apply Hincl; left; reflexivity | exact Er].
      - apply IH. intros y Hy. apply Hincl. right. exact Hy. }
    rewrite (Hf ds (incl_refl ds)). reflexivity.
Qed.

Lemma scatter_chart_payload_filter_witness :
  (List.length (boosters_of ds0) <= 10)%nat /\
  exists fig,
    run (get_scatter_chart "A" [0; 5000]) (init_state ds0) = Ok fig
    /\ map pt_x (sc_points fig) = [100; 3000; 2000].
Proof.
  split; [vm_compute; lia|].
  destruct (scatter_chart_payload_filter ds0 "A" 0 5000 ltac:(vm_compute; lia))
    as [fig [Hrun [Hpts _]]].
  exists fig. split; [exact Hrun|]. rewrite Hpts. reflexivity.
Defined.

(** C4: whenever two scatter calls succeed, whatever their site and payload
    range, they use the same booster colour map, in which booster category
    [b] gets the palette entry at [b]'s first-appearance index in the full
    dataset, and every point is coloured by its category's entry. *)
Theorem scatter_booster_color_fixed (ds : list launch_record)
    (s1 s2 : string) (p1 p2 : list Z) (fig1 fig2 : scatter_figure)
    (H1 : run (get_scatter_chart s1 p1) (init_state ds) = Ok fig1)
    (H2 : run (get_scatter_chart s2 p2) (init_state ds) = Ok fig2) :
  sc_color_map fig1 = sc_color_map fig2
  /\ (forall b, dict_get (sc_color_map fig1) b
                = match index_of b (boosters_of ds) with
                  | Some j => nth_error Plotly j
                  | None => None
                  end)
  /\ (forall p, In p (sc_points fig1) -> pt_color p = dict_get (sc_color_map fig1) (pt_category p)).
Proof.
  destruct p1 as [|lo1 r1]; [discriminate|]. destruct p2 as [|lo2 r2]; [discriminate|].
  pose proof (scatter_ok_shape _ _ _ _ _ H1) as [Hp1 Hc1].
  rewrite get_scatter_chart_run in H1, H2.
  destruct (fst (color_loop 0 (boosters_of ds) [] (init_state ds))); [|discriminate].
  injection H1 as <-. injection H2 as <-. split; [reflexivity|]. split; [exact Hc1|].
  intros p Hp. simpl in Hp. apply in_map_iff in Hp. destruct Hp as [r [<- _]]. reflexivity.
Qed.

Lemma scatter_booster_color_fixed_witness :
  exists fig1 fig2,
    run (get_scatter_chart "A" [0; 5000]) (init_state ds0) = Ok fig1
    /\ run (get_scatter_chart "ALL" [2000; 10000]) (init_state ds0) = Ok fig2
    /\ sc_color_map fig1 = sc_color_map fig2.
Proof.
  destruct (scatter_ok_exists ds0 "A" 0 [5000] ltac:(vm_compute; lia)) as [fig1 H1].
  destruct (scatter_ok_exists ds0 "ALL" 2000 [10000] ltac:(vm_compute; lia)) as [fig2 H2].
  exists fig1, fig2. split; [exact H1|]. split; [exact H2|].
  exact (proj1 (scatter_booster_color_fixed ds0 "A" "ALL" [0; 5000] [2000; 10000] fig1 fig2 H1 H2)).
Defined.

(** C6: at the slider's initial value [[min_payload, max_payload]] the
    payload filter keeps every record: the chart shows all records of the
    selected site (all records for "ALL"). *)
Theorem scatter_default_range_full (ds : list launch_record) (site : string) (lo hi : Z)
    (Hmin : min_payload (globals (init_state ds)) = Some lo)
    (Hmax : max_payload (globals (init_state ds)) = Some hi)
    (Hpal : (List.length (boosters_of ds) <= 10)%nat) :
  exists fig,
    run (get_scatter_chart site [lo; hi]) (init_state ds) = Ok fig
    /\ sc_points fig
       = map (to_point (sc_color_map fig))
             (if String.eqb site "ALL" then ds
              else filter (fun r => String.eqb (launch_site r) site) ds).
Proof.
  destruct (scatter_ok_exists ds site lo [hi] Hpal) as [fig Hfig].
  destruct (scatter_ok_shape _ _ _ _ _ Hfig) as [Hpts _].
  exists fig. split; [exact Hfig|]. rewrite Hpts. f_equal. simpl last.
  pose proof (payload_within_bounds ds lo hi Hmin Hmax) as Hin.
  assert (Hid : filter (in_payload_range lo hi) ds = ds).
  { clear -Hin. induction ds as [|r ds' IH]; simpl; [reflexivity|].
    replace (in_payload_range lo hi r) with true.
    - f_equal. apply IH. intros y Hy. apply Hin. right. exact Hy.
    - symmetry. apply in_payload_range_spec. apply Hin. left. reflexivity. }
  unfold scatter_rows. rewrite Hid. reflexivity.
Qed.

Lemma scatter_default_range_full_witness :
  min_payload (globals (init_state ds0)) = Some 100
  /\ max_payload (globals (init_state ds0)) = Some 7000
  /\ exists fig,
       run (get_scatter_chart "B" [100; 7000]) (init_state ds0) = Ok fig
       /\ List.length (sc_points fig) = 2%nat.
Proof.
  split; [reflexivity|]. split; [reflexivity|].
  destruct (scatter_default_range_full ds0 "B" 100 7000 eq_refl eq_refl ltac:(vm_compute; lia))
    as [fig [Hrun Hpts]].
  exists fig. split; [exact Hrun|]. rewrite Hpts. reflexivity.
Defined.

(** C8 (as the claim states it, refuted): a reversed range [[5000, 1000]]
    does not make the scatter callback fail. *)
Lemma scatter_reversed_range_no_error :
  ~ (exists e, run (get_scatter_chart "ALL" [5000; 1000]) (init_state ds0) = Err e).
Proof.
  intros [e He]. vm_compute in He. discriminate.
Qed.

(** C8 (amended): with [low > high] the scatter callback raises nothing
    about the range; it returns a chart with no points. *)
Theorem scatter_reversed_range_empty (ds : list launch_record) (site : string) (lo hi : Z)
    (Hrev : hi < lo) (Hpal : (List.length (boosters_of ds) <= 10)%nat) :
  exists fig,
    run (get_scatter_chart site [lo; hi]) (init_state ds) = Ok fig /\ sc_points fig = [].
Proof.
  destruct (scatter_chart_payload_filter ds site lo hi Hpal) as [fig [Hrun [_ [_ Hempty]]]].
  exists fig. split; [exact Hrun|]. apply Hempty. intros r _ Hr. lia.
Qed.

Lemma scatter_reversed_range_empty_witness :
  1000 < 5000 /\
  exists fig,
    run (get_scatter_chart "ALL" [5000; 1000]) (init_state ds0) = Ok fig /\ sc_points fig = [].
Proof.
  split; [lia|].
  exact (scatter_reversed_range_empty ds0 "ALL" 5000 1000 ltac:(lia) ltac:(vm_compute; lia)).
Defined.

(** C10: the payload argument is read only through its first and its last
    element: any non-empty list behaves as [[first; last]] (on every heap),
    the empty list raises [IndexError], and a one-element list [[x]] keeps
    exactly the records of payload [x]. *)
Theorem scatter_payload_list_ends (ds : list launch_record) (site : string) (x : Z) (rest : list Z)
    (Hpal : (List.length (boosters_of ds) <= 10)%nat) :
  (forall st, get_scatter_chart site (x :: rest) st
              = get_scatter_chart site [x; last (x :: rest) x] st)
  /\ (forall st, fst (get_scatter_chart site [] st) = Err IndexError)
  /\ exists fig,
       run (get_scatter_chart site [x]) (init_state ds) = Ok fig
       /\ sc_points fig
          = map (to_point (sc_color_map fig))
                (filter (fun r => Z.eqb (payload_mass r) x
                                  && (String.eqb site "ALL" || String.eqb (launch_site r) site)) ds).
Proof.
  split; [|split].
  - intro st. unfold get_scatter_chart. rewrite py_last_cons. reflexivity.
  - intro st. reflexivity.
  - destruct (scatter_ok_exists ds site x [] Hpal) as [fig Hfig].
    destruct (scatter_ok_shape _ _ _ _ _ Hfig) as [Hpts _].
    exists fig. split; [exact Hfig|]. rewrite Hpts, scatter_rows_filter. f_equal.
    apply filter_ext. intro r. simpl last. f_equal.
    unfold in_payload_range. destruct (Z.eqb_spec (payload_mass r) x).
    + apply andb_true_iff. split; apply Z.leb_le; lia.
    + destruct (Z.leb_spec x (payload_mass r)); destruct (Z.leb_spec (payload_mass r) x);
        simpl; try reflexivity; lia.
Qed.

Lemma scatter_payload_list_ends_witness :
  (List.length (boosters_of ds0) <= 10)%nat
  /\ get_scatter_chart "A" [0; 99999; 5000] (init_state ds0)
     = get_scatter_chart "A" [0; 5000] (init_state ds0).
Proof.
  split; [vm_compute; lia|].
  exact (proj1 (scatter_payload_list_ends ds0 "A" 0 [99999; 5000] ltac:(vm_compute; lia))
           (init_state ds0)).
Defined.

(** ** The pie chart over all sites *)

Lemma cell_eqb_spec (a b : cell) : reflect (a = b) (cell_eqb a b).
Proof.
  destruct a as [x|x|], b as [y|y|]; simpl; try (constructor; discriminate).
  - destruct (Z.eqb_spec x y); constructor; congruence.
  - destruct (String.eqb_spec x y); constructor; congruence.
  - constructor. reflexivity.
Qed.

Lemma len_filter_cons {A} (p : A -> bool) (x : A) (l : list A) :
  Z.of_nat (List.length (filter p (x :: l)))
  = (if p x then 1 else 0) + Z.of_nat (List.length (filter p l)).
Proof. simpl. destruct (p x); simpl List.length; lia. Qed.

Lemma unique_acc_CStr (seen l : list string) :
  unique_acc cell_eqb (map CStr seen) (map CStr l) = map CStr (unique_acc String.eqb seen l).
Proof.
  revert seen. induction l as [|x r IH]; intro seen; simpl; [reflexivity|].
  replace (existsb (cell_eqb (CStr x)) (map CStr seen)) with (existsb (String.eqb x) seen)
    by (clear; induction seen as [|y t IHs]; simpl; [reflexivity | rewrite IHs; reflexivity]).
  destruct (existsb (String.eqb x) seen); simpl; [apply IH|].
  f_equal. apply (IH (x :: seen)).
Qed.

Lemma label_sum_all_site (ds : list launch_record) (s : string) :
  binary_classes ds ->
  label_sum (CStr s) (map (fun r => mk_pie_entry (CStr (launch_site r)) (class r) None) ds)
  = success_count s ds.
Proof.
  unfold success_count. induction ds as [|r ds' IH]; intro Hbin; [reflexivity|].
  inversion Hbin as [|? ? Hr Hbin']. subst.
  rewrite len_filter_cons, <- (IH Hbin'). simpl.
  destruct (String.eqb (launch_site r) s); simpl;
    destruct Hr as [E | E]; rewrite ?E; simpl; lia.
Qed.

(** Counting successes site by site, over the distinct sites, counts every
    success of a record whose site was not already seen. *)
Lemma not_seen_split (l : list launch_record) (seen : list string) (x : string) :
  ~ In x seen ->
  Z.of_nat (List.length (filter (fun r => Z.eqb (class r) 1
                                  && negb (existsb (String.eqb (launch_site r)) seen)) l))
  = success_count x l
    + Z.of_nat (List.length (filter (fun r => Z.eqb (class r) 1
                                  && negb (existsb (String.eqb (launch_site r)) (x :: seen))) l)).
Proof.
  unfold success_count. intro Hx. induction l as [|r l IH]; [reflexivity|].
  rewrite !len_filter_cons, IH. simpl.
  destruct (String.eqb_spec (launch_site r) x) as [E|E].
  - rewrite E. replace (existsb (String.eqb x) seen) with false
      by (symmetry; apply not_true_iff_false; intro H;
          apply (existsb_eqb_In String.eqb String.eqb_spec) in H; contradiction).
    destruct (Z.eqb (class r) 1); cbn [andb negb orb]; lia.
  - replace (String.eqb (launch_site r) x) with false
      by (symmetry; apply String.eqb_neq; exact E).
    simpl. lia.
Qed.

Lemma sum_success_by_site (l : list launch_record) (seen : list string) :
  fold_right Z.add 0 (map (fun s => success_count s l)
                          (unique_acc String.eqb seen (map launch_site l)))
  = Z.of_nat (List.length (filter (fun r => Z.eqb (class r) 1
                                   && negb (existsb (String.eqb (launch_site r)) seen)) l)).
Proof.
  revert seen. induction l as [|r l IH]; intro seen; [reflexivity|].
  assert (Hskip : forall seen', In (launch_site r) seen' ->
            map (fun s => success_count s (r :: l)) (unique_acc String.eqb seen' (map launch_site l))
            = map (fun s => success_count s l) (unique_acc String.eqb seen' (map launch_site l))).
  { intros seen' Hin. apply map_ext_in. intros s Hs.
    apply (unique_acc_In String.eqb String.eqb_spec) in Hs. destruct Hs as [Hs _].
    unfold success_count. rewrite len_filter_cons. simpl.
    destruct (String.eqb_spec (launch_site r) s) as [E|E]; [subst; contradiction | reflexivity]. }
  rewrite len_filter_cons. simpl map at 1. simpl unique_acc.
  destruct (existsb (String.eqb (launch_site r)) seen) eqn:Ex; simpl negb.
  - apply (existsb_eqb_In String.eqb String.eqb_spec) in Ex.
    rewrite (Hskip seen Ex), IH. rewrite andb_false_r. reflexivity.
  - simpl map. simpl fold_right.
    rewrite (Hskip (launch_site r :: seen) (or_introl eq_refl)), IH.
    rewrite (not_seen_split l seen (launch_site r)).
    + unfold success_count at 1. rewrite len_filter_cons, String.eqb_refl. simpl.
      unfold success_count. destruct (Z.eqb (class r) 1); cbn [andb negb orb]; lia.
    + intro H. apply (existsb_eqb_In String.eqb String.eqb_spec) in H. congruence.
Qed.

(** C1: for "ALL" the pie has one slice per launch site (in order of first
    appearance), whose value is the number of successful launches from that
    site, and the slice values add up to the number of successes in the
    whole dataset. *)
Theorem pie_all_success_by_site (ds : list launch_record) (Hbin : binary_classes ds) :
  exists fig,
    run (get_pie_chart "ALL") (init_state ds) = Ok fig
    /\ pie_slices fig = map (fun s => (CStr s, success_count s ds)) (unique_str (map launch_site ds))
    /\ fold_right Z.add 0 (map snd (pie_slices fig))
       = Z.of_nat (List.length (filter (fun r => Z.eqb (class r) 1) ds)).
Proof.
  exists (px_pie_records ds "Total Success Launches By Site").
  split; [apply get_pie_chart_all|].
  assert (Hsl : pie_slices (px_pie_records ds "Total Success Launches By Site")
                = map (fun s => (CStr s, success_count s ds)) (unique_str (map launch_site ds))).
  { unfold pie_slices, px_pie_records, unique_str. simpl pie_entries.
    rewrite map_map. simpl pe_label.
    pose proof (unique_acc_CStr [] (map launch_site ds)) as Hu.
    change (map CStr []) with (@nil cell) in Hu.
    rewrite <- (map_map launch_site CStr), Hu, map_map.
    apply map_ext. intro s. rewrite (label_sum_all_site ds s Hbin). reflexivity. }
  split; [exact Hsl|].
  rewrite Hsl, map_map. simpl snd. unfold unique_str. rewrite sum_success_by_site.
  f_equal. f_equal. apply filter_ext. intro r. simpl. apply andb_true_r.
Qed.

Lemma pie_all_success_by_site_witness :
  binary_classes ds0 /\
  exists fig,
    run (get_pie_chart "ALL") (init_state ds0) = Ok fig
    /\ pie_slices fig = [(CStr "A", 3); (CStr "B", 0)].
Proof.
  split; [unfold binary_classes, ds0; repeat constructor; simpl; lia|].
  destruct (pie_all_success_by_site ds0 ltac:(unfold binary_classes, ds0; repeat constructor; simpl; lia))
    as [fig [Hrun [Hsl _]]].
  exists fig. split; [exact Hrun|]. rewrite Hsl. reflexivity.
Defined.

(** ** The pie chart of one site *)

Lemma insert_desc_perm {A} (x : A * Z) (l : list (A * Z)) :
  Permutation (insert_desc x l) (x :: l).
Proof.
  induction l as [|y r IH]; simpl; [reflexivity|].
  destruct (snd y <? snd x); [reflexivity|].
  rewrite IH. apply perm_swap.
Qed.

Lemma sort_desc_perm {A} (l : list (A * Z)) : Permutation (sort_desc l) l.
Proof.
  induction l as [|x r IH]; simpl; [reflexivity|].
  rewrite insert_desc_perm, IH. reflexivity.
Qed.

Lemma order_rows_perm (rows : list (cell * Z)) :
  Permutation (order_rows ["Success"; "Failure"] rows) rows.
Proof.
  unfold order_rows. simpl. rewrite app_nil_r.
  induction rows as [|[c v] r IH]; simpl; [reflexivity|].
  destruct (cell_eqb c (CStr "Success")) eqn:ES, (cell_eqb c (CStr "Failure")) eqn:EF; simpl.
  - destruct c as [z|str|]; try discriminate. simpl in ES, EF.
    apply String.eqb_eq in ES. apply String.eqb_eq in EF. congruence.
  - apply perm_skip. exact IH.
  - rewrite <- app_assoc. simpl. rewrite <- Permutation_middle. apply perm_skip.
    rewrite app_assoc. exact IH.
  - rewrite <- Permutation_middle. apply perm_skip. exact IH.
Qed.

Lemma label_sum_perm (lab : cell) (es es' : list pie_entry) :
  Permutation es es' -> label_sum lab es = label_sum lab es'.
Proof.
  unfold label_sum. induction 1 as [|e l l' _ IH|e e' l|l l' l'' _ IH1 _ IH2]; simpl.
  - reflexivity.
  - rewrite IH. reflexivity.
  - destruct (cell_eqb (pe_label e) lab), (cell_eqb (pe_label e') lab); lia.
  - congruence.
Qed.

Lemma class_label_eqb (v : Z) :
  cell_eqb (class_label (CInt v)) (CStr "Success") = Z.eqb v 1
  /\ cell_eqb (class_label (CInt v)) (CStr "Failure") = Z.eqb v 0.
Proof. destruct v as [|[p|p|]|p]; split; reflexivity. Qed.

Lemma count_Z_absent (k : Z) (l : list Z) :
  existsb (Z.eqb k) l = false -> count_Z k l = 0.
Proof.
  unfold count_Z. induction l as [|x r IH]; simpl; [reflexivity|].
  intro H. apply orb_false_iff in H. destruct H as [H1 H2].
  rewrite H1. exact (IH H2).
Qed.

(** The entries of a site's pie, up to order: one per distinct class value
    of the site's records, labelled and counted. *)
Definition site_entries (cmap : list (string * string)) (cls : list Z) : list pie_entry :=
  map (fun v => mk_pie_entry (class_label (CInt v)) (count_Z v cls)
                             (lookup_color cmap (class_label (CInt v))))
      (unique_Z cls).

Lemma site_pie_perm (s : string) (ds : list launch_record) :
  let cls := map class (filter (fun r => String.eqb (launch_site r) s) ds) in
  Permutation (pie_entries (site_pie s ds))
              (site_entries [("Failure", "#EF553B"); ("Success", "#636EFA")] cls).
Proof.
  intro cls. unfold site_pie, site_entries. simpl pie_entries.
  rewrite order_rows_perm. unfold site_rows, value_counts.
  fold cls. rewrite sort_desc_perm. rewrite !map_map. reflexivity.
Qed.

Lemma site_entries_label_sum (cmap : list (string * string)) (cls : list Z) (k : Z) (lab : cell) :
  (forall v, cell_eqb (class_label (CInt v)) lab = Z.eqb v k) ->
  label_sum lab (site_entries cmap cls) = count_Z k cls.
Proof.
  intro Hlab. unfold site_entries, unique_Z.
  transitivity (fold_right (fun v acc => if Z.eqb v k then count_Z k cls + acc else acc) 0
                           (unique_acc Z.eqb [] cls)).
  - generalize (unique_acc Z.eqb [] cls) as U. induction U as [|v U IH]; [reflexivity|].
    unfold label_sum in *. cbn [fold_right map pe_label pe_value]. rewrite Hlab, IH.
    destruct (Z.eqb_spec v k); [subst|]; reflexivity.
  - rewrite (unique_acc_sum_at Z.eqb Z.eqb_spec k (count_Z k cls) [] cls). simpl.
    rewrite andb_true_r. destruct (existsb (Z.eqb k) cls) eqn:E; [reflexivity|].
    symmetry. apply count_Z_absent. exact E.
Qed.

Lemma count_Z_site (s : string) (k : Z) (ds : list launch_record) :
  count_Z k (map class (filter (fun r => String.eqb (launch_site r) s) ds))
  = Z.of_nat (List.length (filter (fun r => String.eqb (launch_site r) s && Z.eqb (class r) k) ds)).
Proof.
  unfold count_Z. induction ds as [|r ds' IH]; [reflexivity|].
  simpl. destruct (String.eqb (launch_site r) s); simpl; [|exact IH].
  rewrite Z.eqb_sym. destruct (Z.eqb (class r) k); simpl List.length; lia.
Qed.

(** C2: for a site other than "ALL" the pie has at most two slices, every
    entry labelled "Success" or "Failure" (class 1 and 0 mapped to labels),
    and the value of the "Success" slice is the number of records of that
    site with class 1 (that of the "Failure" slice the number with
    class 0). *)
Theorem pie_site_success_slice (ds : list launch_record) (s : string)
    (Hs : s <> "ALL") (Hbin : binary_classes ds) :
  exists fig,
    run (get_pie_chart s) (init_state ds) = Ok fig
    /\ (List.length (pie_slices fig) <= 2)%nat
    /\ (forall e, In e (pie_entries fig) ->
                  pe_label e = CStr "Success" \/ pe_label e = CStr "Failure")
    /\ label_sum (CStr "Success") (pie_entries fig) = success_count s ds
    /\ label_sum (CStr "Failure") (pie_entries fig)
       = Z.of_nat (List.length (filter (fun r => String.eqb (launch_site r) s
                                                 && Z.eqb (class r) 0) ds)).
Proof.
  exists (site_pie s ds). split; [exact (get_pie_chart_site ds s Hs)|].
  pose proof (site_pie_perm s ds) as Hperm. cbv zeta in Hperm.
  set (cls := map class (filter (fun r => String.eqb (launch_site r) s) ds)) in *.
  assert (Hcls : forall v, In v cls -> v = 0 \/ v = 1).
  { intros v Hv. unfold cls in Hv. apply in_map_iff in Hv. destruct Hv as [r [<- Hr]].
    apply filter_In in Hr. destruct Hr as [Hr _].
    unfold binary_classes in Hbin. rewrite Forall_forall in Hbin. exact (Hbin r Hr). }
  assert (HU : forall v, In v (unique_Z cls) -> v = 0 \/ v = 1).
  { intros v Hv. apply (unique_acc_In Z.eqb Z.eqb_spec) in Hv. apply Hcls. apply Hv. }
  split; [|split; [|split]].
  - unfold pie_slices. rewrite length_map.
    eapply Nat.le_trans; [apply unique_acc_length|]. rewrite length_map.
    rewrite (Permutation_length Hperm). unfold site_entries. rewrite length_map.
    change 2%nat with (List.length [0; 1]).
    apply NoDup_incl_length; [apply (unique_acc_NoDup Z.eqb Z.eqb_spec)|].
    intros v Hv. destruct (HU v Hv) as [-> | ->]; simpl; auto.
  - intros e He. apply (Permutation_in _ Hperm) in He.
    unfold site_entries in He. apply in_map_iff in He. destruct He as [v [<- Hv]].
    simpl. destruct (HU v Hv) as [-> | ->]; [right | left]; reflexivity.
  - rewrite (label_sum_perm _ _ _ Hperm).
    rewrite (site_entries_label_sum _ cls 1 (CStr "Success") (fun v => proj1 (class_label_eqb v))).
    unfold cls. rewrite count_Z_site. reflexivity.
  - rewrite (label_sum_perm _ _ _ Hperm).
    rewrite (site_entries_label_sum _ cls 0 (CStr "Failure") (fun v => proj2 (class_label_eqb v))).
    unfold cls. rewrite count_Z_site. reflexivity.
Qed.

Lemma pie_site_success_slice_witness :
  "A" <> "ALL" /\ binary_classes ds0 /\
  exists fig,
    run (get_pie_chart "A") (init_state ds0) = Ok fig
    /\ label_sum (CStr "Success") (pie_entries fig) = 3.
Proof.
  split; [discriminate|]. split; [unfold binary_classes, ds0; repeat constructor; simpl; lia|].
  destruct (pie_site_success_slice ds0 "A" ltac:(discriminate)
              ltac:(unfold binary_classes, ds0; repeat constructor; simpl; lia))
    as [fig [Hrun [_ [_ [Hsucc _]]]]].
  exists fig. split; [exact Hrun|]. rewrite Hsucc. reflexivity.
Defined.

(** C5 (as the claim states it, refuted): the "ALL" pie has no "Success"
    slice, so its "Success" colour differs from that of a site's pie. *)
Lemma pie_success_color_all_differs :
  ~ (forall fig1 fig2,
       run (get_pie_chart "ALL") (init_state ds0) = Ok fig1 ->
       run (get_pie_chart "A") (init_state ds0) = Ok fig2 ->
       slice_color (CStr "Success") fig1 = slice_color (CStr "Success") fig2).
Proof.
  intro H.
  specialize (H _ _ (get_pie_chart_all ds0) (get_pie_chart_site ds0 "A" ltac:(discriminate))).
  vm_compute in H. discriminate.
Qed.

(** C5 (amended): for every site other than "ALL" the pie keeps its entries
    in the given order ([sort] off) with the "Success" entries before the
    "Failure" entries, and colours "Success" with Plotly[0] and "Failure"
    with Plotly[1], whichever counts are present. *)
Theorem pie_site_colors_and_order (ds : list launch_record) (s : string) (Hs : s <> "ALL") :
  exists fig,
    run (get_pie_chart s) (init_state ds) = Ok fig
    /\ pie_sort fig = false
    /\ (forall e, In e (pie_entries fig) -> pe_label e = CStr "Success" -> pe_color e = Some "#636EFA")
    /\ (forall e, In e (pie_entries fig) -> pe_label e = CStr "Failure" -> pe_color e = Some "#EF553B")
    /\ exists l1 l2 l3 : list pie_entry,
         pie_entries fig = (l1 ++ l2 ++ l3)%list
         /\ Forall (fun e => pe_label e = CStr "Success") l1
         /\ Forall (fun e => pe_label e = CStr "Failure") l2
         /\ Forall (fun e => pe_label e <> CStr "Success" /\ pe_label e <> CStr "Failure") l3.
Proof.
  exists (site_pie s ds). split; [exact (get_pie_chart_site ds s Hs)|].
  split; [reflexivity|].
  split; [|split].
  - intros e He Hl. unfold site_pie in He. simpl pie_entries in He.
    apply in_map_iff in He. destruct He as [r [<- _]]. simpl in Hl |- *. rewrite Hl. reflexivity.
  - intros e He Hl. unfold site_pie in He. simpl pie_entries in He.
    apply in_map_iff in He. destruct He as [r [<- _]]. simpl in Hl |- *. rewrite Hl. reflexivity.
  - unfold site_pie, order_rows. simpl pie_entries. simpl List.concat. rewrite app_nil_r, !map_app.
    set (mk := fun r : cell * Z => mk_pie_entry (fst r) (snd r)
                 (lookup_color [("Failure", "#EF553B"); ("Success", "#636EFA")] (fst r))).
    eexists _, _, _. split; [rewrite app_assoc; reflexivity|].
    split; [|split]; apply Forall_forall; intros e He; apply in_map_iff in He;
      destruct He as [r [<- Hr]]; apply filter_In in Hr; destruct Hr as [_ Hr]; simpl.
    + destruct (cell_eqb_spec (fst r) (CStr "Success")); [assumption | discriminate].
    + destruct (cell_eqb_spec (fst r) (CStr "Failure")); [assumption | discriminate].
    + destruct (cell_eqb_spec (fst r) (CStr "Success")); [discriminate|].
      destruct (cell_eqb_spec (fst r) (CStr "Failure")); [discriminate|]. split; assumption.
Qed.

Lemma pie_site_colors_and_order_witness :
  "B" <> "ALL" /\
  exists fig, run (get_pie_chart "B") (init_state ds0) = Ok fig /\ pie_sort fig = false.
Proof.
  split; [discriminate|].
  destruct (pie_site_colors_and_order ds0 "B" ltac:(discriminate)) as [fig [Hrun [Hsort _]]].
  exists fig. split; assumption.
Defined.

(** C7 (as the claim states it, refuted): a site that is neither "ALL" nor
    in the dataset does not make the pie callback fail. *)
Lemma pie_unknown_site_no_error :
  ~ (exists e, run (get_pie_chart "Q") (init_state ds0) = Err e).
Proof.
  intros [e He]. vm_compute in He. discriminate.
Qed.

(** C7 (amended): for a site that is neither "ALL" nor a launch site of the
    dataset, the pie callback raises nothing and returns a pie with no
    entries, titled with the given site. *)
Theorem pie_unknown_site_empty (ds : list launch_record) (s : string)
    (Hs : s <> "ALL") (Hnot : ~ In s (map launch_site ds)) :
  run (get_pie_chart s) (init_state ds)
  = Ok (mk_pie_figure ("Total Success Launches for Site " ++ s) [] false).
Proof.
  rewrite (get_pie_chart_site ds s Hs).
  assert (Hnil : filter (fun r => String.eqb (launch_site r) s) ds = []).
  { induction ds as [|r ds' IH]; simpl; [reflexivity|].
    destruct (String.eqb_spec (launch_site r) s) as [E|E].
    - exfalso. apply Hnot. left. exact E.
    - apply IH. intro H. apply Hnot. right. exact H. }
  unfold site_pie, site_rows. rewrite Hnil. reflexivity.
Qed.

Lemma pie_unknown_site_empty_witness :
  "Q" <> "ALL" /\ ~ In "Q" (map launch_site ds0) /\
  run (get_pie_chart "Q") (init_state ds0)
  = Ok (mk_pie_figure "Total Success Launches for Site Q" [] false).
Proof.
  assert (Hn : ~ In "Q" (map launch_site ds0)) by (simpl; intuition discriminate).
  split; [discriminate|]. split; [exact Hn|].
  exact (pie_unknown_site_empty ds0 "Q" ltac:(discriminate) Hn).
Defined.

(** ** Frames the callbacks leave alone *)

(** [s'] only adds frames at the end of [s]'s heap and keeps its module
    globals. *)
Definition extends (s s' : state) : Prop :=
  exists ext, heap s' = (heap s ++ ext)%list /\ globals s' = globals s.

(** Run from any state extending [s0], [m] ends in a state extending [s0],
    whether it returns or raises. *)
Definition keeps {A} (s0 : state) (m : M A) : Prop :=
  forall s, extends s0 s -> extends s0 (snd (m s)).

Lemma extends_refl (s : state) : extends s s.
Proof. exists []. rewrite app_nil_r. split; reflexivity. Qed.

Lemma keeps_pure {A} (s0 : state) (m : M A) : (forall s, snd (m s) = s) -> keeps s0 m.
Proof. intros H s Hs. rewrite H. exact Hs. Qed.

Lemma keeps_bind {A B} (s0 : state) (m : M A) (k : A -> M B) :
  keeps s0 m -> (forall a, keeps s0 (k a)) -> keeps s0 (bind m k).
Proof.
  intros Hm Hk s Hs. unfold bind.
  specialize (Hm s Hs). destruct (m s) as [[a|e] s']; simpl in *.
  - exact (Hk a s' Hm).
  - exact Hm.
Qed.

(** A frame allocated during the run lies past every frame of [s0]. *)
Lemma keeps_bind_alloc {B} (s0 : state) (f : frame) (k : loc -> M B) :
  (forall l, (List.length (heap s0) <= l)%nat -> keeps s0 (k l)) ->
  keeps s0 (bind (alloc f) k).
Proof.
  intros Hk s [ext [Hh Hg]]. unfold bind, alloc. simpl. apply Hk.
  - rewrite Hh, length_app. lia.
  - exists (ext ++ [f])%list. simpl. rewrite Hh, app_assoc. split; [reflexivity | exact Hg].
Qed.

Lemma replace_nth_app_r {A} (l1 l2 : list A) (n : nat) (x : A) :
  (List.length l1 <= n)%nat ->
  replace_nth n x (l1 ++ l2) = (l1 ++ replace_nth (n - List.length l1) x l2)%list.
Proof.
  revert n. induction l1 as [|y r IH]; intros n Hn.
  - simpl. rewrite Nat.sub_0_r. reflexivity.
  - destruct n as [|n']; simpl in Hn; [lia|]. simpl. rewrite IH by lia. reflexivity.
Qed.

Lemma keeps_write (s0 : state) (l : loc) (f : frame) :
  (List.length (heap s0) <= l)%nat -> keeps s0 (write l f).
Proof.
  intros Hl s [ext [Hh Hg]]. unfold write.
  destruct (nth_error (heap s) l); simpl.
  - exists (replace_nth (l - List.length (heap s0)) f ext).
    rewrite Hh, replace_nth_app_r by exact Hl. split; [reflexivity | exact Hg].
  - exists ext. split; assumption.
Qed.

Lemma color_loop_pure (i : nat) (bs : list string) (d : list (string * string)) (s : state) :
  snd (color_loop i bs d s) = s.
Proof. rewrite (color_loop_state i bs d s s). reflexivity. Qed.

Lemma keeps_alloc (s0 : state) (f : frame) : keeps s0 (alloc f).
Proof.
  intros s [ext [Hh Hg]]. exists (ext ++ [f])%list. simpl.
  rewrite Hh, app_assoc. split; [reflexivity | exact Hg].
Qed.

Create HintDb pure_ops.

Lemma ret_pure {A} (a : A) (s : state) : snd (ret a s) = s.
Proof. reflexivity. Qed.

Lemma raise_pure {A} (e : py_error) (s : state) : snd (@raise A e s) = s.
Proof. reflexivity. Qed.

Lemma read_pure (l : loc) (s : state) : snd (read l s) = s.
Proof. unfold read. destruct (nth_error (heap s) l); reflexivity. Qed.

Lemma read_records_pure (l : loc) (s : state) : snd (read_records l s) = s.
Proof. unfold read_records, bind, read. destruct (nth_error (heap s) l) as [[]|]; reflexivity. Qed.

Lemma plotly_color_pure (i : nat) (s : state) : snd (plotly_color i s) = s.
Proof. unfold plotly_color. destruct (nth_error Plotly i); reflexivity. Qed.

Lemma set_columns_pure (cols : list string) (f : frame) (s : state) :
  snd (set_columns cols f s) = s.
Proof. destruct f; reflexivity. Qed.

Lemma map_class_column_pure (f : frame) (s : state) : snd (map_class_column f s) = s.
Proof. destruct f as [|cols rows]; simpl; [|destruct (existsb _ cols)]; reflexivity. Qed.

Lemma px_pie_counts_pure (f : frame) cmap order_in title (s : state) :
  snd (px_pie_counts f cmap order_in title s) = s.
Proof. destruct f as [|cols rows]; simpl; [|destruct (_ && _)]; reflexivity. Qed.

Lemma py_first_pure (l : list Z) (s : state) : snd (py_first l s) = s.
Proof. destruct l; reflexivity. Qed.

Lemma py_last_pure (l : list Z) (s : state) : snd (py_last l s) = s.
Proof. unfold py_last. destruct (rev l); reflexivity. Qed.

#[local] Hint Resolve ret_pure raise_pure read_pure read_records_pure plotly_color_pure
  set_columns_pure map_class_column_pure px_pie_counts_pure py_first_pure py_last_pure
  color_loop_pure : pure_ops.

(** Walk a callback's code: allocation, branches, sequencing, in-place
    writes to freshly allocated frames, and operations that leave the
    state alone. *)
Ltac keeps_solve :=
  lazymatch goal with
  | |- keeps _ (bind (alloc _) _) => apply keeps_bind_alloc; intros ? ?; keeps_solve
  | |- keeps _ (bind (if ?b then _ else _) _) => destruct b; keeps_solve
  | |- keeps _ (bind _ _) => apply keeps_bind; [keeps_solve | intro; cbv beta zeta; keeps_solve]
  | |- keeps _ (write _ _) => apply keeps_write; lia
  | |- keeps _ (alloc _) => apply keeps_alloc
  | |- keeps _ (if ?b then _ else _) => destruct b; keeps_solve
  | |- keeps _ _ => apply keeps_pure; intro; auto with pure_ops
  end.

Lemma get_pie_chart_keeps (s0 : state) (site : string) : keeps s0 (get_pie_chart site).
Proof.
  unfold get_pie_chart. destruct (String.eqb site "ALL"); keeps_solve.
Qed.

Lemma get_scatter_chart_keeps (s0 : state) (site : string) (payload : list Z) :
  keeps s0 (get_scatter_chart site payload).
Proof.
  unfold get_scatter_chart. keeps_solve.
Qed.

(** C9: from any state, returning or raising, neither callback changes a
    frame that existed before the call (in particular [spacex_df]) nor the
    module globals [max_payload], [min_payload] and [launch_sites]: the
    only heap change is frames appended at the end (the filtered copies and
    the counts frame, which are the only frames written in place). *)
Theorem callbacks_preserve_dataset (st : state) (site : string) (payload : list Z) :
  (exists ext, heap (snd (get_pie_chart site st)) = (heap st ++ ext)%list
               /\ globals (snd (get_pie_chart site st)) = globals st)
  /\ (exists ext, heap (snd (get_scatter_chart site payload st)) = (heap st ++ ext)%list
                  /\ globals (snd (get_scatter_chart site payload st)) = globals st).
Proof.
  split.
  - exact (get_pie_chart_keeps st site st (extends_refl st)).
  - exact (get_scatter_chart_keeps st site payload st (extends_refl st)).
Qed.

(** ** Callbacks from any state whose first frame is the dataset *)

Lemma nth_error_snoc {A} (l : list A) (x : A) :
  nth_error (l ++ [x])%list (List.length l) = Some x.
Proof. rewrite nth_error_app2, Nat.sub_diag by lia. reflexivity. Qed.

Lemma replace_nth_snoc {A} (l : list A) (x y : A) :
  replace_nth (List.length l) y (l ++ [x])%list = (l ++ [y])%list.
Proof. induction l as [|a r IH]; simpl; [reflexivity | rewrite IH; reflexivity]. Qed.

Ltac heap_steps H :=
  repeat (first [ rewrite H | rewrite nth_error_snoc | rewrite replace_nth_snoc ]; cbn).

Ltac heap_steps0 :=
  repeat (first [ rewrite nth_error_snoc | rewrite replace_nth_snoc ]; cbn).

Lemma get_pie_chart_any (st : state) (ds : list launch_record) (s : string) :
  nth_error (heap st) spacex_df = Some (FRecords ds) ->
  run (get_pie_chart s) st = run (get_pie_chart s) (init_state ds).
Proof.
  intro H. destruct st as [h g]. simpl in H. unfold run, get_pie_chart.
  destruct (String.eqb s "ALL").
  - cbv [bind read_records read ret raise]. cbn. rewrite H. reflexivity.
  - cbv [bind read_records read ret raise alloc write plotly_color set_columns map_class_column].
    cbn. heap_steps H. reflexivity.
Qed.

Lemma get_scatter_chart_any (st : state) (ds : list launch_record) (s : string) (payload : list Z) :
  nth_error (heap st) spacex_df = Some (FRecords ds) ->
  run (get_scatter_chart s payload) st = run (get_scatter_chart s payload) (init_state ds).
Proof.
  intro H. destruct st as [h g]. simpl in H.
  destruct h as [|f0 h]; [discriminate|]. injection H as ->.
  destruct payload as [|lo rest]; [reflexivity|].
  rewrite get_scatter_chart_run. unfold run, get_scatter_chart. rewrite py_last_cons.
  unfold scatter_rows, scatter_title, boosters_of.
  destruct (String.eqb s "ALL");
    cbv [bind read_records read ret raise alloc py_first]; cbn -[color_loop]; heap_steps0;
    rewrite (color_loop_state _ _ _ _ (init_state ds));
    destruct (fst (color_loop 0 _ [] (init_state ds))); cbn; heap_steps0; reflexivity.
Qed.

Lemma reachable_dataset (ds : list launch_record) (st : state) :
  reachable ds st -> nth_error (heap st) spacex_df = Some (FRecords ds).
Proof.
  induction 1 as [|st site _ IH|st site payload _ IH].
  - reflexivity.
  - destruct (get_pie_chart_keeps st site st (extends_refl st)) as [ext [Hh _]].
    rewrite Hh, nth_error_app1; [exact IH|].
    apply nth_error_Some. rewrite IH. discriminate.
  - destruct (get_scatter_chart_keeps st site payload st (extends_refl st)) as [ext [Hh _]].
    rewrite Hh, nth_error_app1; [exact IH|].
    apply nth_error_Some. rewrite IH. discriminate.
Qed.

(** X1: re-rendering is stable: in any state the app reaches through
    callback calls (returning or raising), each callback returns exactly
    what it returns on the freshly loaded dataset. *)
Theorem callbacks_stable_after_calls (ds : list launch_record) (st : state)
    (Hreach : reachable ds st) (site : string) (payload : list Z) :
  run (get_pie_chart site) st = run (get_pie_chart site) (init_state ds)
  /\ run (get_scatter_chart site payload) st = run (get_scatter_chart site payload) (init_state ds).
Proof.
  pose proof (reachable_dataset ds st Hreach) as H.
  split; [apply get_pie_chart_any | apply get_scatter_chart_any]; exact H.
Qed.

Lemma callbacks_stable_after_calls_witness :
  let st := snd (get_scatter_chart "A" [0; 5000] (snd (get_pie_chart "B" (init_state ds0)))) in
  reachable ds0 st
  /\ run (get_pie_chart "A") st = run (get_pie_chart "A") (init_state ds0).
Proof.
  intro st.
  assert (Hr : reachable ds0 st) by (apply reach_scatter, reach_pie, reach_init).
  split; [exact Hr|].
  exact (proj1 (callbacks_stable_after_calls ds0 st Hr "A" [])).
Defined.

(** ** [launch_sites] and the dropdown *)

Section UniqueMore.
Context {A : Type} (eqb : A -> A -> bool) (eqb_spec : forall x y, reflect (x = y) (eqb x y)).

Lemma unique_acc_complete (seen l : list A) (y : A) :
  In y l -> ~ In y seen -> In y (unique_acc eqb seen l).
Proof.
  revert seen. induction l as [|x r IH]; intros seen Hl Hs; simpl; [contradiction|].
  destruct (existsb (eqb x) seen) eqn:E.
  - destruct Hl as [<- | Hl].
    + apply (existsb_eqb_In eqb eqb_spec) in E. contradiction.
    + apply IH; assumption.
  - destruct (eqb_spec x y) as [<- | Hne]; [left; reflexivity|].
    right. destruct Hl as [<- | Hl]; [contradiction|].
    apply IH; [exact Hl|]. intros [<- | H]; [contradiction | exact (Hs H)].
Qed.
End UniqueMore.

Lemma insert_str_perm (x : string) (l : list string) : Permutation (insert_str x l) (x :: l).
Proof.
  induction l as [|y r IH]; simpl; [reflexivity|].
  destruct (String.leb x y); [reflexivity|]. rewrite IH. apply perm_swap.
Qed.

Lemma sorted_str_perm (l : list string) : Permutation (sorted_str l) l.
Proof.
  induction l as [|x r IH]; simpl; [reflexivity|].
  rewrite insert_str_perm, IH. reflexivity.
Qed.

Lemma insert_str_hd (x y : string) (l : list string) :
  str_le y x -> HdRel str_le y l -> HdRel str_le y (insert_str x l).
Proof.
  intros Hyx Hl. destruct l as [|z r]; simpl.
  - constructor. exact Hyx.
  - inversion Hl. subst. destruct (String.leb x z); constructor; assumption.
Qed.

Lemma insert_str_sorted (x : string) (l : list string) :
  Sorted str_le l -> Sorted str_le (insert_str x l).
Proof.
  induction l as [|y r IH]; intro Hs; simpl.
  - repeat constructor.
  - inversion Hs as [|? ? Hr Hhd]. subst.
    destruct (String.leb x y) eqn:E.
    + constructor; [exact Hs | constructor; exact E].
    + constructor; [exact (IH Hr)|]. apply insert_str_hd; [|exact Hhd].
      unfold str_le. destruct (String.leb_total x y) as [H|H]; [congruence | exact H].
Qed.

(** X2: [launch_sites] is sorted, has no duplicates, and holds exactly the
    sites that occur in the dataset. *)
Theorem launch_sites_sorted_distinct (ds : list launch_record) :
  let sites := launch_sites (globals (init_state ds)) in
  Sorted str_le sites /\ NoDup sites /\ (forall s, In s sites <-> In s (map launch_site ds)).
Proof.
  simpl. unfold unique_str. split; [|split].
  - unfold sorted_str. induction (unique_acc String.eqb [] (map launch_site ds)) as [|x r IH];
      simpl; [constructor | apply insert_str_sorted; exact IH].
  - eapply Permutation_NoDup; [apply Permutation_sym, sorted_str_perm|].
    apply (unique_acc_NoDup String.eqb String.eqb_spec).
  - intro s. split; intro H.
    + apply (Permutation_in _ (sorted_str_perm _)) in H.
      apply (unique_acc_In String.eqb String.eqb_spec) in H. apply H.
    + apply (Permutation_in _ (Permutation_sym (sorted_str_perm _))).
      apply (unique_acc_complete String.eqb String.eqb_spec); [exact H | intros []].
Qed.

(** ** Totals of the pie charts *)

Lemma fold_add_perm (l l' : list Z) :
  Permutation l l' -> fold_right Z.add 0 l = fold_right Z.add 0 l'.
Proof. induction 1; simpl; lia. Qed.

Lemma count_Z_cons (v x : Z) (r : list Z) :
  count_Z v (x :: r) = (if Z.eqb v x then 1 else 0) + count_Z v r.
Proof. unfold count_Z. apply len_filter_cons. Qed.

Lemma count_split (p : Z -> bool) (seen : list Z) (x : Z) (l : list Z) :
  ~ In x seen ->
  Z.of_nat (List.length (filter (fun y => p y && negb (existsb (Z.eqb y) seen)) l))
  = (if p x then count_Z x l else 0)
    + Z.of_nat (List.length (filter (fun y => p y && negb (existsb (Z.eqb y) (x :: seen))) l)).
Proof.
  intro Hx. induction l as [|y l IH]; [destruct (p x); reflexivity|].
  rewrite !len_filter_cons, IH, count_Z_cons. simpl existsb.
  destruct (Z.eqb_spec y x) as [->|Hne].
  - rewrite Z.eqb_refl.
    replace (existsb (Z.eqb x) seen) with false
      by (symmetry; apply not_true_iff_false; intro H;
          apply (existsb_eqb_In Z.eqb Z.eqb_spec) in H; contradiction).
    destruct (p x); cbn [andb negb orb]; lia.
  - replace (Z.eqb x y) with false by (symmetry; apply Z.eqb_neq; congruence).
    cbn [orb]. destruct (p x); lia.
Qed.

(** Summing the counts of the distinct values that satisfy [p] counts the
    elements that satisfy [p] (and were not already seen). *)
Lemma sum_counts_unique (p : Z -> bool) (l seen : list Z) :
  fold_right (fun v acc => if p v then count_Z v l + acc else acc) 0 (unique_acc Z.eqb seen l)
  = Z.of_nat (List.length (filter (fun y => p y && negb (existsb (Z.eqb y) seen)) l)).
Proof.
  revert seen. induction l as [|x r IH]; intro seen; [reflexivity|].
  assert (Hskip : forall seen', In x seen' ->
            fold_right (fun v acc => if p v then count_Z v (x :: r) + acc else acc) 0
                       (unique_acc Z.eqb seen' r)
            = fold_right (fun v acc => if p v then count_Z v r + acc else acc) 0
                         (unique_acc Z.eqb seen' r)).
  { intros seen' Hin.
    assert (HU : forall v, In v (unique_acc Z.eqb seen' r) -> v <> x).
    { intros v Hv E. subst. apply (unique_acc_In Z.eqb Z.eqb_spec) in Hv. tauto. }
    revert HU. generalize (unique_acc Z.eqb seen' r) as U.
    induction U as [|v U IHU]; intro HU; simpl; [reflexivity|].
    rewrite IHU by (intros w Hw; apply HU; right; exact Hw).
    rewrite count_Z_cons. replace (Z.eqb v x) with false
      by (symmetry; apply Z.eqb_neq; apply HU; left; reflexivity).
    reflexivity. }
  rewrite len_filter_cons. simpl unique_acc.
  destruct (existsb (Z.eqb x) seen) eqn:Ex.
  - apply (existsb_eqb_In Z.eqb Z.eqb_spec) in Ex.
    rewrite (Hskip seen Ex), IH. rewrite andb_false_r. reflexivity.
  - cbn [fold_right]. rewrite (Hskip (x :: seen) (or_introl eq_refl)), IH.
    rewrite (count_split p seen x r).
    + rewrite count_Z_cons, Z.eqb_refl. destruct (p x); cbn [andb negb]; lia.
    + intro H. apply (existsb_eqb_In Z.eqb Z.eqb_spec) in H. congruence.
Qed.

Lemma site_entries_label_count (cmap : list (string * string)) (cls : list Z) (lab : cell) :
  label_sum lab (site_entries cmap cls)
  = Z.of_nat (List.length (filter (fun v => cell_eqb (class_label (CInt v)) lab) cls)).
Proof.
  unfold site_entries, unique_Z.
  transitivity (fold_right (fun v acc => if cell_eqb (class_label (CInt v)) lab
                                         then count_Z v cls + acc else acc) 0
                           (unique_acc Z.eqb [] cls)).
  - generalize (unique_acc Z.eqb [] cls) as U. induction U as [|v U IH]; [reflexivity|].
    unfold label_sum in *. cbn [fold_right map pe_label pe_value]. rewrite IH. reflexivity.
  - rewrite sum_counts_unique. f_equal. f_equal. apply filter_ext. intro v. apply andb_true_r.
Qed.

Lemma site_entries_total (cmap : list (string * string)) (cls : list Z) :
  fold_right Z.add 0 (map pe_value (site_entries cmap cls)) = Z.of_nat (List.length cls).
Proof.
  unfold site_entries, unique_Z.
  transitivity (fold_right (fun v acc => if (fun _ : Z => true) v then count_Z v cls + acc else acc) 0
                           (unique_acc Z.eqb [] cls)).
  - generalize (unique_acc Z.eqb [] cls) as U. induction U as [|v U IH]; [reflexivity|].
    cbn [fold_right map pe_value]. rewrite IH. reflexivity.
  - pose proof (sum_counts_unique (fun _ => true) cls []) as H. cbv beta in H. rewrite H.
    f_equal. f_equal. clear H. simpl. induction cls as [|x r IH]; simpl; [reflexivity | rewrite IH; reflexivity].
Qed.

Lemma filter_class_site (p : Z -> bool) (s : string) (ds : list launch_record) :
  List.length (filter p (map class (filter (fun r => String.eqb (launch_site r) s) ds)))
  = List.length (filter (fun r => String.eqb (launch_site r) s && p (class r)) ds).
Proof.
  induction ds as [|r ds' IH]; [reflexivity|].
  simpl. destruct (String.eqb (launch_site r) s); simpl; [|exact IH].
  destruct (p (class r)); simpl; rewrite IH; reflexivity.
Qed.

Lemma site_pie_total (s : string) (ds : list launch_record) :
  fold_right Z.add 0 (map pe_value (pie_entries (site_pie s ds)))
  = Z.of_nat (List.length (filter (fun r => String.eqb (launch_site r) s) ds)).
Proof.
  rewrite (fold_add_perm _ _ (Permutation_map pe_value (site_pie_perm s ds))).
  rewrite site_entries_total, length_map. reflexivity.
Qed.

Lemma length_filter_pos {A} (p : A -> bool) (l : list A) (x : A) :
  In x l -> p x = true -> (0 < List.length (filter p l))%nat.
Proof.
  induction l as [|y l IH]; intros Hx Hp; [contradiction|].
  simpl. destruct Hx as [<- | Hx]; [rewrite Hp; simpl; lia|].
  destruct (p y); simpl; [lia | exact (IH Hx Hp)].
Qed.


Lemma in_options_site (ds : list launch_record) (label value : string) :
  In (label, value) (options (globals (init_state ds))) -> value <> "ALL" ->
  label = value /\ In value (map launch_site ds).
Proof.
  intros Hin Hv. destruct Hin as [E | Hin]; [injection E as _ E; congruence|].
  apply in_map_iff in Hin. destruct Hin as [x [E Hx]]. injection E as -> ->.
  split; [reflexivity|]. simpl in Hx.
  apply (Permutation_in _ (sorted_str_perm _)) in Hx.
  apply (unique_acc_In String.eqb String.eqb_spec) in Hx. apply Hx.
Qed.

(** X3: every entry of the site dropdown other than "ALL" is a launch site
    of the dataset, shown under its own name, and selecting it gives a pie
    with something to show: its values add up to a positive number, the
    number of launches from that site. *)
Theorem dropdown_site_nonempty_pie (ds : list launch_record) (label value : string)
    (Hin : In (label, value) (dd_options (site_dropdown (app_layout (globals (init_state ds))))))
    (Hv : value <> "ALL") :
  label = value /\ In value (map launch_site ds)
  /\ exists fig,
       run (get_pie_chart value) (init_state ds) = Ok fig
       /\ fold_right Z.add 0 (map pe_value (pie_entries fig))
          = Z.of_nat (List.length (filter (fun r => String.eqb (launch_site r) value) ds))
       /\ 0 < fold_right Z.add 0 (map pe_value (pie_entries fig)).
Proof.
  destruct (in_options_site ds label value Hin Hv) as [Hl Hsite].
  split; [exact Hl|]. split; [exact Hsite|].
  exists (site_pie value ds). split; [exact (get_pie_chart_site ds value Hv)|].
  rewrite site_pie_total. split; [reflexivity|].
  apply in_map_iff in Hsite. destruct Hsite as [r [Er Hr]].
  pose proof (length_filter_pos (fun r => String.eqb (launch_site r) value) ds r Hr
                (proj2 (String.eqb_eq _ _) Er)). lia.
Qed.

Lemma dropdown_site_nonempty_pie_witness :
  In ("B", "B") (dd_options (site_dropdown (app_layout (globals (init_state ds0)))))
  /\ "B" <> "ALL"
  /\ exists fig, run (get_pie_chart "B") (init_state ds0) = Ok fig
                 /\ fold_right Z.add 0 (map pe_value (pie_entries fig)) = 2.
Proof.
  assert (Hin : In ("B", "B") (dd_options (site_dropdown (app_layout (globals (init_state ds0))))))
    by (vm_compute; tauto).
  split; [exact Hin|]. split; [discriminate|].
  destruct (dropdown_site_nonempty_pie ds0 "B" "B" Hin ltac:(discriminate))
    as [_ [_ [fig [Hrun [Hsum _]]]]].
  exists fig. split; [exact Hrun|]. rewrite Hsum. reflexivity.
Defined.

(** X9: for a site other than "ALL" the pie accounts for every launch of
    that site, whatever its class: the entry values add up to the number of
    the site's records. *)
Theorem pie_site_counts_all_launches (ds : list launch_record) (s : string) (Hs : s <> "ALL") :
  exists fig,
    run (get_pie_chart s) (init_state ds) = Ok fig
    /\ fold_right Z.add 0 (map pe_value (pie_entries fig))
       = Z.of_nat (List.length (filter (fun r => String.eqb (launch_site r) s) ds)).
Proof.
  exists (site_pie s ds). split; [exact (get_pie_chart_site ds s Hs)|]. apply site_pie_total.
Qed.

Lemma pie_site_counts_all_launches_witness :
  "A" <> "ALL" /\
  exists fig, run (get_pie_chart "A") (init_state ds0) = Ok fig
              /\ fold_right Z.add 0 (map pe_value (pie_entries fig)) = 4.
Proof.
  split; [discriminate|].
  destruct (pie_site_counts_all_launches ds0 "A" ltac:(discriminate)) as [fig [Hrun Hsum]].
  exists fig. split; [exact Hrun|]. rewrite Hsum. reflexivity.
Defined.

(** X10: in a site's pie, records whose class is neither 0 nor 1 are not
    dropped: [map] turns their class into NaN, and they form one NaN slice,
    without an entry in the colour map, whose value is their number. *)
Theorem pie_site_other_classes_nan (ds : list launch_record) (s : string) (Hs : s <> "ALL") :
  exists fig,
    run (get_pie_chart s) (init_state ds) = Ok fig
    /\ label_sum CNaN (pie_entries fig)
       = Z.of_nat (List.length (filter (fun r => String.eqb (launch_site r) s
                                                 && negb (Z.eqb (class r) 0 || Z.eqb (class r) 1)) ds))
    /\ (forall e, In e (pie_entries fig) -> pe_label e = CNaN -> pe_color e = None).
Proof.
  exists (site_pie s ds). split; [exact (get_pie_chart_site ds s Hs)|]. split.
  - rewrite (label_sum_perm _ _ _ (site_pie_perm s ds)), site_entries_label_count.
    rewrite filter_class_site. f_equal. f_equal. apply filter_ext. intro r. f_equal.
    destruct (class r) as [|[p|p|]|p]; reflexivity.
  - intros e He Hl. unfold site_pie in He. simpl pie_entries in He.
    apply in_map_iff in He. destruct He as [r [<- _]]. simpl in Hl |- *. rewrite Hl. reflexivity.
Qed.

Lemma pie_site_other_classes_nan_witness :
  "A" <> "ALL" /\
  exists fig,
    run (get_pie_chart "A") (init_state [mk_record "A" 100 2 "FT"; mk_record "A" 200 1 "FT";
                                         mk_record "A" 300 5 "FT"]) = Ok fig
    /\ label_sum CNaN (pie_entries fig) = 2.
Proof.
  split; [discriminate|].
  destruct (pie_site_other_classes_nan [mk_record "A" 100 2 "FT"; mk_record "A" 200 1 "FT";
                                        mk_record "A" 300 5 "FT"] "A" ltac:(discriminate))
    as [fig [Hrun [Hnan _]]].
  exists fig. split; [exact Hrun|]. rewrite Hnan. reflexivity.
Defined.

(** X8: with 0/1 classes the two pie charts agree: the "Success" slice of a
    site's pie has the value of that site's slice in the "ALL" pie. *)
Theorem pie_site_success_matches_all (ds : list launch_record) (s : string)
    (Hs : s <> "ALL") (Hbin : binary_classes ds) :
  exists fig_all fig_site,
    run (get_pie_chart "ALL") (init_state ds) = Ok fig_all
    /\ run (get_pie_chart s) (init_state ds) = Ok fig_site
    /\ label_sum (CStr "Success") (pie_entries fig_site) = label_sum (CStr s) (pie_entries fig_all).
Proof.
  exists (px_pie_records ds "Total Success Launches By Site"), (site_pie s ds).
  split; [apply get_pie_chart_all|]. split; [exact (get_pie_chart_site ds s Hs)|].
  rewrite (label_sum_perm _ _ _ (site_pie_perm s ds)).
  rewrite (site_entries_label_sum _ _ 1 (CStr "Success") (fun v => proj1 (class_label_eqb v))).
  rewrite count_Z_site. unfold px_pie_records. simpl pie_entries.
  rewrite (label_sum_all_site ds s Hbin). reflexivity.
Qed.

Lemma pie_site_success_matches_all_witness :
  "A" <> "ALL" /\ binary_classes ds0 /\
  exists fig_all fig_site,
    run (get_pie_chart "ALL") (init_state ds0) = Ok fig_all
    /\ run (get_pie_chart "A") (init_state ds0) = Ok fig_site
    /\ label_sum (CStr "Success") (pie_entries fig_site) = label_sum (CStr "A") (pie_entries fig_all).
Proof.
  assert (Hbin : binary_classes ds0) by (unfold binary_classes, ds0; repeat constructor; simpl; lia).
  split; [discriminate|]. split; [exact Hbin|].
  exact (pie_site_success_matches_all ds0 "A" ltac:(discriminate) Hbin).
Defined.


(** ** The payload bounds and the first render *)

Lemma fold_min_in (l : list Z) (x : Z) : In (fold_left Z.min l x) (x :: l).
Proof.
  revert x. induction l as [|a r IH]; intro x; simpl; [left; reflexivity|].
  destruct (IH (Z.min x a)) as [E | H].
  - rewrite <- E. destruct (Z.min_spec x a) as [[_ ->] | [_ ->]]; [left | right; left]; reflexivity.
  - right. right. exact H.
Qed.

Lemma fold_max_in (l : list Z) (x : Z) : In (fold_left Z.max l x) (x :: l).
Proof.
  revert x. induction l as [|a r IH]; intro x; simpl; [left; reflexivity|].
  destruct (IH (Z.max x a)) as [E | H].
  - rewrite <- E. destruct (Z.max_spec x a) as [[_ ->] | [_ ->]]; [right; left | left]; reflexivity.
  - right. right. exact H.
Qed.

Lemma payload_bounds_some (ds : list launch_record) :
  ds <> [] ->
  exists lo hi,
    min_payload (globals (init_state ds)) = Some lo
    /\ max_payload (globals (init_state ds)) = Some hi
    /\ In lo (map payload_mass ds) /\ In hi (map payload_mass ds).
Proof.
  intro Hne. simpl. unfold series_min, series_max.
  destruct (map payload_mass ds) as [|x l] eqn:Emap.
  - destruct ds; [contradiction | discriminate].
  - eexists _, _. split; [reflexivity|]. split; [reflexivity|].
    split; [apply fold_min_in | apply fold_max_in].
Qed.

(** X4: on a non-empty dataset [min_payload] and [max_payload] are payloads
    of records of the dataset, and every record's payload lies between
    them (so [min_payload <= max_payload]). *)
Theorem payload_bounds_attained (ds : list launch_record) (Hne : ds <> []) :
  exists lo hi,
    min_payload (globals (init_state ds)) = Some lo
    /\ max_payload (globals (init_state ds)) = Some hi
    /\ (exists r, In r ds /\ payload_mass r = lo)
    /\ (exists r, In r ds /\ payload_mass r = hi)
    /\ lo <= hi
    /\ Forall (fun r => lo <= payload_mass r <= hi) ds.
Proof.
  destruct (payload_bounds_some ds Hne) as [lo [hi [Hlo [Hhi [Ilo Ihi]]]]].
  pose proof (payload_within_bounds ds lo hi Hlo Hhi) as Hb.
  exists lo, hi. split; [exact Hlo|]. split; [exact Hhi|].
  apply in_map_iff in Ilo. apply in_map_iff in Ihi.
  split; [destruct Ilo as [r [E Hr]]; exists r; split; assumption|].
  split; [destruct Ihi as [r [E Hr]]; exists r; split; assumption|].
  split.
  - destruct Ilo as [r [E Hr]]. specialize (Hb r Hr). lia.
  - apply Forall_forall. exact Hb.
Qed.

Lemma payload_bounds_attained_witness :
  ds0 <> [] /\
  min_payload (globals (init_state ds0)) = Some 100 /\ max_payload (globals (init_state ds0)) = Some 7000
  /\ exists lo hi, min_payload (globals (init_state ds0)) = Some lo
                   /\ max_payload (globals (init_state ds0)) = Some hi /\ lo <= hi.
Proof.
  split; [discriminate|]. split; [reflexivity|]. split; [reflexivity|].
  destruct (payload_bounds_attained ds0 ltac:(discriminate)) as [lo [hi [Hlo [Hhi [_ [_ [Hle _]]]]]]].
  exists lo, hi. split; [exact Hlo|]. split; [exact Hhi | exact Hle].
Defined.

(** X5: the first render.  On a non-empty dataset whose booster categories
    fit the palette, the layout's initial values (dropdown "ALL", slider at
    [[min_payload, max_payload]]) make the pie callback return the all-sites
    pie and the scatter callback show every record of the dataset. *)
Theorem initial_render_shows_all (ds : list launch_record) (Hne : ds <> [])
    (Hpal : (List.length (boosters_of ds) <= 10)%nat) :
  let L := app_layout (globals (init_state ds)) in
  exists lo hi,
    rs_value (payload_slider L) = [Some lo; Some hi]
    /\ run (get_pie_chart (dd_value (site_dropdown L))) (init_state ds)
       = Ok (px_pie_records ds "Total Success Launches By Site")
    /\ exists fig,
         run (get_scatter_chart (dd_value (site_dropdown L)) [lo; hi]) (init_state ds) = Ok fig
         /\ sc_points fig = map (to_point (sc_color_map fig)) ds.
Proof.
  intro L. destruct (payload_bounds_some ds Hne) as [lo [hi [Hlo [Hhi _]]]].
  pose proof (payload_within_bounds ds lo hi Hlo Hhi) as Hb.
  exists lo, hi. split; [unfold L; simpl in Hlo, Hhi |- *; rewrite Hlo, Hhi; reflexivity|].
  split; [apply get_pie_chart_all|].
  destruct (scatter_ok_exists ds "ALL" lo [hi] Hpal) as [fig Hfig].
  exists fig. split; [exact Hfig|].
  destruct (scatter_ok_shape _ _ _ _ _ Hfig) as [Hpts _]. rewrite Hpts. f_equal.
  unfold scatter_rows. simpl last. rewrite String.eqb_refl.
  clear -Hb. induction ds as [|r ds' IH]; simpl; [reflexivity|].
  replace (in_payload_range lo hi r) with true.
  - f_equal. apply IH. intros y Hy. apply Hb. right. exact Hy.
  - symmetry. apply in_payload_range_spec. apply Hb. left. reflexivity.
Qed.

Lemma initial_render_shows_all_witness :
  ds0 <> [] /\ (List.length (boosters_of ds0) <= 10)%nat /\
  exists fig,
    run (get_scatter_chart "ALL" [100; 7000]) (init_state ds0) = Ok fig
    /\ List.length (sc_points fig) = 6%nat.
Proof.
  split; [discriminate|]. split; [vm_compute; lia|].
  destruct (initial_render_shows_all ds0 ltac:(discriminate) ltac:(vm_compute; lia))
    as [lo [hi [Hv [_ [fig [Hrun Hpts]]]]]].
  vm_compute in Hv. injection Hv as <- <-.
  exists fig. split; [exact Hrun|]. rewrite Hpts. reflexivity.
Defined.

(** ** How scatter charts relate to each other *)







(** ** When the scatter callback fails *)

Lemma color_loop_overflow (i : nat) (bs : list string) (d : list (string * string)) (s : state) :
  (i <= 10)%nat -> (10 < i + List.length bs)%nat -> fst (color_loop i bs d s) = Err IndexError.
Proof.
  revert i d. induction bs as [|x r IH]; intros i d Hi Hlen; simpl in *; [lia|].
  unfold bind, plotly_color.
  destruct (nth_error Plotly i) eqn:E.
  - apply IH; [|lia]. assert (i < 10)%nat by (change 10%nat with (List.length Plotly);
                                       apply nth_error_Some; rewrite E; discriminate). lia.
  - reflexivity.
Qed.

(** X12: with a non-empty payload list the scatter callback fails exactly
    when the dataset has more than ten booster categories (the palette has
    ten colours), whatever the site and range, and the only exception it
    can raise is [IndexError]. *)
Theorem scatter_palette_overflow (ds : list launch_record) (site : string) (lo : Z) (rest : list Z) :
  (run (get_scatter_chart site (lo :: rest)) (init_state ds) = Err IndexError
   <-> (10 < List.length (boosters_of ds))%nat)
  /\ (forall e, run (get_scatter_chart site (lo :: rest)) (init_state ds) = Err e -> e = IndexError).
Proof.
  rewrite get_scatter_chart_run.
  destruct (Nat.lt_ge_cases 10 (List.length (boosters_of ds))) as [Hgt | Hle].
  - rewrite (color_loop_overflow 0 _ [] _ ltac:(lia) Hgt).
    split; [tauto|]. intros e He. congruence.
  - destruct (color_loop_ok 0 _ [] (init_state ds) Hle) as [cmap E]. rewrite E.
    split; [split; [discriminate | lia]|]. intros e He. discriminate.
Qed.

(** X13: in every state the running app reaches, the pie callback returns
    a figure for every site: none of its [KeyError] or [IndexError] paths
    is taken. *)
Theorem pie_callback_never_raises (ds : list launch_record) (st : state)
    (Hreach : reachable ds st) (site : string) :
  exists fig, run (get_pie_chart site) st = Ok fig.
Proof.
  rewrite (get_pie_chart_any st ds site (reachable_dataset ds st Hreach)).
  destruct (String.eqb_spec site "ALL") as [-> | Hs].
  - eexists. apply get_pie_chart_all.
  - eexists. exact (get_pie_chart_site ds site Hs).
Qed.

Lemma pie_callback_never_raises_witness :
  let st := snd (get_scatter_chart "B" [0; 9000] (init_state ds0)) in
  reachable ds0 st /\ exists fig, run (get_pie_chart "Q") st = Ok fig.
Proof.
  intro st. assert (Hr : reachable ds0 st) by (apply reach_scatter, reach_init).
  split; [exact Hr|]. exact (pie_callback_never_raises ds0 st Hr "Q").
Defined.
